(** * cloudigrade: the EC2 helper module [util/aws/ec2.py]

    A shallow embedding of the helper functions that wrap boto3's EC2
    calls, and the properties of them that the specification states.

    The module talks to AWS through boto3.  Every call it makes on a
    boto3 object is a [request] answered by an environment ([Cloud]); the
    functions run in a state-and-exception monad that threads the
    environment's state and records the requests issued, in order. *)

From Stdlib Require Import String Ascii ZArith List Bool Lia.
From stdpp Require Import base option strings list gmap.

Open Scope string_scope.
Open Scope Z_scope.

(** ** Python strings

    Text is a [string] of 8-bit characters.  The names, ids, states,
    error codes and platform values that AWS hands out are ASCII; on
    them a character is a code point, and [lower] needs to move the
    ASCII letters only. *)

Module PyStr.

(** [s.endswith(suffix)] *)
Fixpoint endswith (s suffix : string) : bool :=
  if String.eqb s suffix then true
  else match s with
       | EmptyString => false
       | String _ s' => endswith s' suffix
       end.

(** [s[:n]] for a non-negative [n] *)
Fixpoint slice_to (n : nat) (s : string) : string :=
  match n, s with
  | O, _ => EmptyString
  | S _, EmptyString => EmptyString
  | S n', String c s' => String c (slice_to n' s')
  end.

(** [s.startswith(p)] *)
Fixpoint startswith (s p : string) {struct p} : bool :=
  match p, s with
  | EmptyString, _ => true
  | String _ _, EmptyString => false
  | String a p', String b s' => Ascii.eqb a b && startswith s' p'
  end.

(** One character of [s.lower()]: the letters A-Z move to a-z. *)
Definition lower_char (c : ascii) : ascii :=
  let n := nat_of_ascii c in
  if ((65 <=? n)%nat && (n <=? 90)%nat)%bool then ascii_of_nat (n + 32) else c.

(** [s.lower()] *)
Fixpoint lower (s : string) : string :=
  match s with
  | EmptyString => EmptyString
  | String c s' => String (lower_char c) (lower s')
  end.

(** ["X" * n] *)
Fixpoint repeat (c : ascii) (n : nat) : string :=
  match n with
  | O => EmptyString
  | S n' => String c (repeat c n')
  end.

(** What [str.format] prints for a value that may be [None]. *)
Definition format_opt (o : option string) : string :=
  match o with
  | Some s => s
  | None => "None"
  end.

End PyStr.

(** ** Descriptors returned by AWS

    The dicts and resource attributes the module reads, as records with
    the keys it reads.  A key the module reads with [.get] and a default,
    or that AWS leaves out of some answers, is an [option]. *)

(** The ["State"] dict of an instance. *)
Record instance_state := {
  Code : option Z;
  state_Name : option string
}.

(** An instance dict of [describe_instances]. *)
Record instance := {
  InstanceId : string;
  State : option instance_state;
  instance_Platform : option string
}.

Record reservation := {
  Instances : option (list instance)
}.

Record describe_instances_response := {
  Reservations : option (list reservation)
}.

Record ebs := {
  SnapshotId : option string
}.

(** A block-device mapping of an image. *)
Record block_device_mapping := {
  DeviceName : string;
  Ebs : option ebs
}.

(** The metadata of an image ([image.meta.data] once loaded; an image
    dict of [describe_images]).  [StateReason] holds the text that
    [str.format] prints for it. *)
Record image_data := {
  ImageId : string;
  Name : string;
  image_State : string;
  StateReason : option string;
  image_Platform : option string;
  RootDeviceName : string;
  BlockDeviceMappings : list block_device_mapping
}.

(** The metadata of a snapshot. *)
Record snapshot_data := {
  snapshot_State : string;
  Progress : string
}.

(** An entry of a snapshot's ["CreateVolumePermissions"]: AWS lists an
    account as [{"UserId": id}] and a public snapshot as
    [{"Group": "all"}], an entry without ["UserId"]. *)
Record create_volume_permission := {
  UserId : option string;
  Group : option string
}.

Record describe_attribute_response := {
  CreateVolumePermissions : list create_volume_permission
}.

Record copy_image_response := {
  new_ImageId : string
}.

Record copy_snapshot_response := {
  new_SnapshotId : option string
}.

Record tag := {
  Key : string;
  Value : string
}.

(** The ["Error"] dict of a botocore [ClientError]'s [response]. *)
Record error_response := {
  error_Code : string;
  error_Message : string
}.

(** ** Exceptions *)

(** Modelled from the spec: [util/exceptions.py] is not among the
    sources.  The error classes the module imports from it are distinct
    kinds, none a subclass of another, as in the specification's error
    taxonomy: [AwsImageError] is both ImageUnavailable and ImageFailed,
    [ImageNotReadyException] is ImageNotReady, [AwsSnapshotError] is
    SnapshotFailed, [SnapshotNotReadyException] is SnapshotNotReady,
    [AwsSnapshotNotOwnedError] is OwnershipNotVerified,
    [AwsSnapshotOwnedError] is OwnershipStillGranted,
    [AwsSnapshotCopyLimitError] is SnapshotCopyLimitExceeded.
    [ClientError] is botocore's; [IndexError], [KeyError] and
    [AttributeError] are Python's own. *)
Inductive exception :=
| ClientError (response : error_response)
| AwsImageError (message : string)
| ImageNotReadyException (message : string)
| AwsSnapshotError (message : string)
| SnapshotNotReadyException (message : string)
| AwsSnapshotNotOwnedError (message : string)
| AwsSnapshotOwnedError (message : string)
| AwsSnapshotCopyLimitError (message : string)
| AwsVolumeError (message : string)
| AwsVolumeNotReadyError
| IndexError
| KeyError (key : string)
| AttributeError.

(** The result of running a piece of Python: a value or a raised
    exception. *)
Inductive outcome (A : Type) :=
| Ok (a : A)
| Raise (e : exception).
Arguments Ok {A} a.
Arguments Raise {A} e.

(** ** boto3 handles and requests *)

(** A boto3 session: boto3's default one (the primary account), or a
    temporary session tied to a customer account. *)
Inductive Session :=
| DefaultSession
| CustomerSession (account : string).

(** [session.client("ec2", region_name=...)] and
    [session.resource("ec2", region_name=...)]. *)
Record Ec2 := {
  ec2_session : Session;
  region_name : option string
}.

(** What the module asks of its environment, indexed by the type of the
    answer.  [GetRegions] and [GetPrimaryAccountId] are the helpers
    [util.aws.helper.get_regions] and
    [util.aws.sts._get_primary_account_id], which are not among the
    sources. *)
Inductive request : Type -> Type :=
| GetRegions (session : Session) : request (list string)
| GetPrimaryAccountId : request string
| DescribeInstances (ec2 : Ec2) (InstanceIds : option (list string))
  : request describe_instances_response
| DescribeImages (ec2 : Ec2) (ImageIds : list string)
  : request (list image_data)
| ImageLoad (ec2 : Ec2) (id : string) : request (option image_data)
| CopyImage (ec2 : Ec2) (Name SourceImageId SourceRegion : string)
  : request copy_image_response
| CreateTags (ec2 : Ec2) (Resources : list string) (Tags : list tag)
  : request unit
| SnapshotLoad (ec2 : Ec2) (snapshot_id : string)
  : request (option snapshot_data)
| SnapshotModifyAttribute (ec2 : Ec2) (snapshot_id : string)
    (Attribute : string) (Add Remove : list string)
    (OperationType : string) (UserIds : list string)
  : request unit
| SnapshotDescribeAttribute (ec2 : Ec2) (snapshot_id : string)
    (Attribute : string)
  : request describe_attribute_response
| SnapshotCopy (ec2 : Ec2) (snapshot_id : string) (SourceRegion : string)
  : request copy_snapshot_response
| CreateVolume (ec2 : Ec2) (SnapshotId AvailabilityZone : string)
  : request string.

(** A request that was issued. *)
Inductive event :=
| Called {R : Type} (q : request R).

(** The environment: AWS and the two helpers.  Answering a request may
    change the environment's state, and may raise instead of answering. *)
Class Cloud := {
  World : Type;
  respond : forall {R : Type}, request R -> World -> outcome R * World
}.

(** ** The monad *)

Section Monad.
Context `{Cloud}.

Record state := {
  world : World;
  trace : list event
}.

Definition M (A : Type) : Type := state -> outcome A * state.

Definition ret {A} (a : A) : M A := fun st => (Ok a, st).

Definition raise {A} (e : exception) : M A := fun st => (Raise e, st).

Definition bind {A B} (m : M A) (k : A -> M B) : M B :=
  fun st =>
    match m st with
    | (Ok a, st') => k a st'
    | (Raise e, st') => (Raise e, st')
    end.

(** [try: m  except <handled>: ...]: [handler e] is [Some h] for an
    exception the [except] clause matches. *)
Definition try_except {A} (m : M A) (handler : exception -> option (M A))
  : M A :=
  fun st =>
    match m st with
    | (Ok a, st') => (Ok a, st')
    | (Raise e, st') =>
        match handler e with
        | Some h => h st'
        | None => (Raise e, st')
        end
    end.

(** Issue a request: it is recorded, then answered. *)
Definition call {R} (q : request R) : M R :=
  fun st =>
    let (r, w) := respond q (world st) in
    (r, {| world := w; trace := (trace st ++ [Called q])%list |}).

(** The answer the environment gives to [q] in state [st]. *)
Definition answer_in {R} (st : state) (q : request R) : outcome R :=
  fst (respond q (world st)).

(** The state after the environment answered [q] in state [st]. *)
Definition after {R} (st : state) (q : request R) : state :=
  {| world := snd (respond q (world st));
     trace := (trace st ++ [Called q])%list |}.

End Monad.

Declare Scope py_scope.
Delimit Scope py_scope with py.
Notation "x <- c ;; k" := (bind c (fun x => k))
  (at level 100, c at next level, right associativity) : py_scope.
Notation "c ;;; k" := (bind c (fun _ => k))
  (at level 100, right associativity) : py_scope.
Open Scope py_scope.

(** ** [class InstanceState(enum.Enum)] *)

Inductive InstanceState :=
| pending
| running
| shutting_down
| terminated
| stopping
| stopped.

Definition value (s : InstanceState) : Z :=
  match s with
  | pending => 0
  | running => 16
  | shutting_down => 32
  | terminated => 48
  | stopping => 64
  | stopped => 80
  end.

Definition is_running (code : Z) : bool := code =? value running.

(** ** The functions of [util/aws/ec2.py]

    [logger] calls are left out; gettext's [_] is taken as the identity
    on the message text. *)

Section Ec2.
Context `{Cloud}.

(** [util.aws.helper.get_regions] *)
Definition get_regions (session : Session) : M (list string) :=
  call (GetRegions session).

(** [util.aws.sts._get_primary_account_id] *)
Definition _get_primary_account_id : M string :=
  call GetPrimaryAccountId.

Definition client (session : Session) (region : string) : Ec2 :=
  {| ec2_session := session; region_name := Some region |}.

(** [boto3.resource("ec2")] *)
Definition boto3_resource : Ec2 :=
  {| ec2_session := DefaultSession; region_name := None |}.

(** [instance.get("State", {}).get("Code", None)] *)
Definition state_code (i : instance) : option Z :=
  match State i with
  | Some s => Code s
  | None => None
  end.

(** [... != InstanceState.terminated.value] *)
Definition not_terminated (i : instance) : bool :=
  match state_code i with
  | Some c => negb (c =? value terminated)
  | None => true
  end.

(** [d.get(key, [])] *)
Definition get_list {A} (o : option (list A)) : list A := default [] o.

(** The inner loop of [describe_instances_everywhere]:
    [running_instances[region_name].extend([...])] per reservation. *)
Definition extend_region (region : string)
    (running_instances : gmap string (list instance))
    (r : reservation) : gmap string (list instance) :=
  alter (fun l => (l ++ filter (fun i => not_terminated i = true)
                              (get_list (Instances r)))%list)
        region running_instances.

Fixpoint each_region (session : Session) (regions : list string)
    (running_instances : gmap string (list instance))
  : M (gmap string (list instance)) :=
  match regions with
  | [] => ret running_instances
  | region :: rest =>
      instances <- call (DescribeInstances (client session region) None) ;;
      let running_instances := <[region := []]> running_instances in
      let running_instances :=
        fold_left (extend_region region)
                  (get_list (Reservations instances)) running_instances in
      each_region session rest running_instances
  end.

Definition describe_instances_everywhere (session : Session)
  : M (gmap string (list instance)) :=
  regions <- get_regions session ;;
  each_region session regions ∅.

Definition describe_instances (session : Session)
    (instance_ids : list string) (source_region : string)
  : M (gmap string instance) :=
  results <- call (DescribeInstances (client session source_region)
                                     (Some instance_ids)) ;;
  ret (fold_left
         (fun instances r =>
            fold_left (fun instances i => <[InstanceId i := i]> instances)
                      (get_list (Instances r)) instances)
         (get_list (Reservations results)) ∅).

Definition describe_images (session : Session) (image_ids : list string)
    (source_region : string) : M (list image_data) :=
  call (DescribeImages (client session source_region) image_ids).

(** [describe_images(...)[0]] *)
Definition describe_image (session : Session) (image_id : string)
    (source_region : string) : M image_data :=
  images <- describe_images session [image_id] source_region ;;
  match images with
  | image :: _ => ret image
  | [] => raise IndexError
  end.

(** A boto3 [ec2.Image] resource: its identifier and [meta.data]. *)
Record Image := {
  image_ec2 : Ec2;
  id : string;
  meta_data : option image_data
}.

(** [session.resource("ec2", region_name=region).Image(image_id)] *)
Definition new_Image (session : Session) (region image_id : string)
  : Image :=
  {| image_ec2 := client session region; id := image_id;
     meta_data := None |}.

(** The image with [data] as its [meta.data]. *)
Definition loaded (image : Image) (data : option image_data) : Image :=
  {| image_ec2 := image_ec2 image; id := id image; meta_data := data |}.

(** The request behind [image.load()]. *)
Definition load_of (image : Image) : request (option image_data) :=
  ImageLoad (image_ec2 image) (id image).

(** [image.load()]: the answer replaces [image.meta.data]. *)
Definition load (image : Image) : M Image :=
  data <- call (load_of image) ;;
  ret (loaded image data).

(** Reading an attribute of the resource ([image.name], [image.state],
    ...): boto3 loads the metadata first when there is none yet, and
    reads the attribute from it. *)
Definition attributes (image : Image) : M image_data :=
  match meta_data image with
  | Some data => ret data
  | None =>
      image <- load image ;;
      match meta_data image with
      | Some data => ret data
      | None => raise AttributeError
      end
  end.

Definition cannot_be_loaded_because (image_id reason : string) : string :=
  "Image " +:+ image_id +:+ " cannot be loaded because: " +:+ reason.

Definition probably_deregistered (image_id : string) : string :=
  "Image " +:+ image_id
    +:+ " cannot be loaded, it has probably been deregistered.".

Definition has_state (image_id : string) (data : image_data) : string :=
  "Image " +:+ image_id +:+ " has state " +:+ image_State data
    +:+ " (reason: " +:+ PyStr.format_opt (StateReason data) +:+ ")".

(** Returns the image as [load] left it (Python mutates the argument
    and returns [None]). *)
Definition check_image_state (image : Image) : M Image :=
  image <- try_except (load image)
             (fun e =>
                match e with
                | ClientError r =>
                    Some (if PyStr.endswith (error_Code r) ".NotFound"
                          then raise (AwsImageError
                                        (cannot_be_loaded_because
                                           (id image) (error_Message r)))
                          else raise e)
                | _ => None
                end) ;;
  match meta_data image with
  | None => raise (AwsImageError (probably_deregistered (id image)))
  | Some data =>
      if String.eqb (image_State data) "available" then ret image
      else
        let message := has_state (id image) data in
        if String.eqb (image_State data) "failed"
        then raise (AwsImageError message)
        else raise (ImageNotReadyException message)
  end.

Definition get_ami (session : Session) (image_id source_region : string)
  : M (option Image) :=
  try_except
    (image <- check_image_state
                (new_Image session source_region image_id) ;;
     ret (Some image))
    (fun e =>
       match e with
       | AwsImageError _ => Some (ret None)
       | _ => None
       end).

Definition new_name_of (old_name : string) : string :=
  PyStr.slice_to 128 ("cloudigrade reference copy (" +:+ old_name +:+ ")").

Definition copy_tags (new_name old_id old_name : string) : list tag :=
  [ {| Key := "Name"; Value := new_name |};
    {| Key := "cloudigrade original image id"; Value := old_id |};
    {| Key := "cloudigrade original image name"; Value := old_name |} ].

Definition copy_ami (session : Session) (image_id source_region : string)
  : M (option string) :=
  old_image <- get_ami session image_id source_region ;;
  match old_image with
  | None => ret None
  | Some old_image =>
      data <- attributes old_image ;;
      let new_name := new_name_of (Name data) in
      let ec2 := client session source_region in
      new_image <- call (CopyImage ec2 new_name image_id source_region) ;;
      call (CreateTags ec2 [new_ImageId new_image]
              (copy_tags new_name (id old_image) (Name data))) ;;;
      ret (Some (new_ImageId new_image))
  end.

(** [for mapping in ami.block_device_mappings: ...] *)
Fixpoint get_ami_snapshot_id_loop (root_device_name : string)
    (mappings : list block_device_mapping) : option string :=
  match mappings with
  | [] => None
  | mapping :: rest =>
      if negb (String.eqb (DeviceName mapping) root_device_name)
      then get_ami_snapshot_id_loop root_device_name rest
      else Some (default "" (SnapshotId (default {| SnapshotId := None |}
                                                 (Ebs mapping))))
  end.

(** [ami] is the image's attributes.  The result [None] is Python's
    [None], returned when the loop ends without a [return]. *)
Definition get_ami_snapshot_id (ami : image_data) : option string :=
  get_ami_snapshot_id_loop (RootDeviceName ami) (BlockDeviceMappings ami).

(** A boto3 [ec2.Snapshot] resource. *)
Record Snapshot := {
  snapshot_ec2 : Ec2;
  snapshot_id : string;
  snapshot_meta : option snapshot_data
}.

Definition new_Snapshot (ec2 : Ec2) (snapshot_id : string) : Snapshot :=
  {| snapshot_ec2 := ec2; snapshot_id := snapshot_id;
     snapshot_meta := None |}.

Definition get_snapshot (session : Session)
    (snapshot_id source_region : string) : Snapshot :=
  new_Snapshot (client session source_region) snapshot_id.

(** Reading an attribute of the snapshot ([snapshot.state],
    [snapshot.progress]), as for an image. *)
Definition snapshot_attributes (snapshot : Snapshot) : M snapshot_data :=
  match snapshot_meta snapshot with
  | Some data => ret data
  | None =>
      data <- call (SnapshotLoad (snapshot_ec2 snapshot)
                                 (snapshot_id snapshot)) ;;
      match data with
      | Some data => ret data
      | None => raise AttributeError
      end
  end.

Definition no_permissions (snapshot_id user_id : string) : string :=
  "No CreateVolumePermissions on Snapshot " +:+ snapshot_id
    +:+ " for UserId " +:+ user_id.

Definition failed_to_remove (snapshot_id user_id : string) : string :=
  "Failed to remove CreateVolumePermissions on Snapshot " +:+ snapshot_id
    +:+ " for user " +:+ user_id.

(** [for user in ...: if user["UserId"] == user_id: found], then
    [otherwise] when the loop ends. *)
Fixpoint for_user {A} (user_id : string)
    (users : list create_volume_permission) (found otherwise : M A)
  : M A :=
  match users with
  | [] => otherwise
  | user :: rest =>
      match UserId user with
      | None => raise (KeyError "UserId")
      | Some u =>
          if String.eqb u user_id then found
          else for_user user_id rest found otherwise
      end
  end.

Definition add_snapshot_ownership (snapshot : Snapshot) : M unit :=
  let attribute := "createVolumePermission" in
  user_id <- _get_primary_account_id ;;
  call (SnapshotModifyAttribute (snapshot_ec2 snapshot)
          (snapshot_id snapshot) attribute [user_id] [] "add"
          [user_id]) ;;;
  response <- call (SnapshotDescribeAttribute (snapshot_ec2 snapshot)
                      (snapshot_id snapshot) "createVolumePermission") ;;
  for_user user_id (CreateVolumePermissions response)
    (ret tt)
    (raise (AwsSnapshotNotOwnedError
              (no_permissions (snapshot_id snapshot) user_id))).

Definition remove_snapshot_ownership (snapshot : Snapshot) : M unit :=
  let attribute := "createVolumePermission" in
  user_id <- _get_primary_account_id ;;
  call (SnapshotModifyAttribute (snapshot_ec2 snapshot)
          (snapshot_id snapshot) attribute [] [user_id] "remove"
          [user_id]) ;;;
  response <- call (SnapshotDescribeAttribute (snapshot_ec2 snapshot)
                      (snapshot_id snapshot) "createVolumePermission") ;;
  for_user user_id (CreateVolumePermissions response)
    (raise (AwsSnapshotOwnedError
              (failed_to_remove (snapshot_id snapshot) user_id)))
    (ret tt).

Definition copy_snapshot (snapshot_id source_region : string)
  : M (option string) :=
  let snapshot := new_Snapshot boto3_resource snapshot_id in
  response <- try_except
                (call (SnapshotCopy (snapshot_ec2 snapshot) snapshot_id
                                    source_region))
                (fun e =>
                   match e with
                   | ClientError r =>
                       Some (if String.eqb (error_Code r)
                                           "ResourceLimitExceeded"
                             then raise (AwsSnapshotCopyLimitError
                                           (error_Message r))
                             else raise e)
                   | _ => None
                   end) ;;
  ret (new_SnapshotId response).

Definition check_snapshot_state (snapshot : Snapshot) : M unit :=
  data <- snapshot_attributes snapshot ;;
  if String.eqb (snapshot_State data) "completed" then ret tt
  else
    let message :=
      "Snapshot " +:+ snapshot_id snapshot +:+ " has state "
        +:+ snapshot_State data +:+ " at " +:+ Progress data in
    if String.eqb (snapshot_State data) "error"
    then raise (AwsSnapshotError message)
    else raise (SnapshotNotReadyException message).

Definition create_volume (snapshot_id zone : string) : M string :=
  let ec2 := boto3_resource in
  let snapshot := new_Snapshot ec2 snapshot_id in
  check_snapshot_state snapshot ;;;
  call (CreateVolume ec2 snapshot_id zone).

End Ec2.

(** A volume's attributes. *)
Record Volume := {
  volume_id : string;
  volume_state : string
}.

Definition check_volume_state (volume : Volume) : outcome unit :=
  if String.eqb (volume_state volume) "creating"
  then Raise AwsVolumeNotReadyError
  else if existsb (String.eqb (volume_state volume))
                  ["in-use"; "deleting"; "deleted"; "error"]
  then Raise (AwsVolumeError ("Volume " +:+ volume_id volume
                                +:+ " has state: " +:+ volume_state volume))
  else Ok tt.

(** The argument of [is_windows]: a dict, or an object with its
    [platform] attribute ([None] when it has none). *)
Inductive aws_data :=
| a_dict (Platform : option string)
| an_object (platform : option string).

Definition is_windows (d : aws_data) : bool :=
  match d with
  | a_dict Platform =>
      String.eqb (PyStr.lower (default "" Platform)) "windows"
  | an_object platform =>
      match platform with
      | Some p => String.eqb p "windows"
      | None => false
      end
  end.

(** All instance dicts of a [describe_instances] answer, in order. *)
Definition instances_of (r : describe_instances_response) : list instance :=
  concat (map (fun r => default [] (Instances r))
              (default [] (Reservations r))).

(** [p] is the permission entry of the account [u]. *)
Definition is_user (u : string) (p : create_volume_permission) : bool :=
  match UserId p with
  | Some v => String.eqb v u
  | None => false
  end.

(** ** A simulated account

    A small environment to run the functions in: one account with its
    regions, instances, images, and one snapshot with its permission
    list.  The flags make it misbehave the way AWS can. *)

Module Sim.

Record account := {
  regions : list string;
  primary_account_id : string;
  reservations : list (string * list reservation);
  images : list image_data;
  load_error : option error_response;
  snapshot : option snapshot_data;
  permissions : list create_volume_permission;
  modify_is_lost : bool;
  copy_error : option error_response
}.

Definition set_permissions (l : list create_volume_permission)
    (a : account) : account :=
  {| regions := regions a; primary_account_id := primary_account_id a;
     reservations := reservations a; images := images a;
     load_error := load_error a; snapshot := snapshot a;
     permissions := l; modify_is_lost := modify_is_lost a;
     copy_error := copy_error a |}.

Definition user (u : string) : create_volume_permission :=
  {| UserId := Some u; Group := None |}.

Definition everyone : create_volume_permission :=
  {| UserId := None; Group := Some "all" |}.

Definition grant (u : string) (l : list create_volume_permission)
  : list create_volume_permission :=
  if existsb (is_user u) l then l else (l ++ [user u])%list.

Definition revoke (u : string) (l : list create_volume_permission)
  : list create_volume_permission :=
  List.filter (fun p => negb (is_user u p)) l.

Definition modify (Add Remove : list string) (a : account) : account :=
  if modify_is_lost a then a
  else set_permissions
         (fold_right revoke (fold_right grant (permissions a) Add) Remove)
         a.

Definition reservations_in (region : option string) (a : account)
  : option (list reservation) :=
  match region with
  | Some r =>
      match List.find (fun p => String.eqb (fst p) r) (reservations a) with
      | Some p => Some (snd p)
      | None => None
      end
  | None => None
  end.

Definition image_with (image_id : string) (a : account)
  : option image_data :=
  List.find (fun i => String.eqb (ImageId i) image_id) (images a).

Definition answer {R : Type} (q : request R) (a : account)
  : outcome R * account :=
  match q in request R return outcome R * account with
  | GetRegions _ => (Ok (regions a), a)
  | GetPrimaryAccountId => (Ok (primary_account_id a), a)
  | DescribeInstances ec2 _ =>
      (Ok {| Reservations := reservations_in (region_name ec2) a |}, a)
  | DescribeImages _ ids =>
      (Ok (List.filter
             (fun i => existsb (String.eqb (ImageId i)) ids) (images a)),
       a)
  | ImageLoad _ image_id =>
      match load_error a with
      | Some e => (Raise (ClientError e), a)
      | None => (Ok (image_with image_id a), a)
      end
  | CopyImage _ _ source _ => (Ok {| new_ImageId := "copy-of-" +:+ source |}, a)
  | CreateTags _ _ _ => (Ok tt, a)
  | SnapshotLoad _ _ => (Ok (snapshot a), a)
  | SnapshotModifyAttribute _ _ _ Add Remove _ _ =>
      (Ok tt, modify Add Remove a)
  | SnapshotDescribeAttribute _ _ _ =>
      (Ok {| CreateVolumePermissions := permissions a |}, a)
  | SnapshotCopy _ snapshot_id _ =>
      match copy_error a with
      | Some e => (Raise (ClientError e), a)
      | None =>
          (Ok {| new_SnapshotId := Some ("copy-of-" +:+ snapshot_id) |}, a)
      end
  | CreateVolume _ _ _ => (Ok "vol-0", a)
  end.

#[export] Instance cloud : Cloud :=
  {| World := account; respond := @answer |}.

Definition start (a : account) : state :=
  {| world := a; trace := [] |}.

Definition an_image (image_State : string) (Name : string) : image_data :=
  {| ImageId := "ami-1"; Name := Name; image_State := image_State;
     StateReason := None; image_Platform := None;
     RootDeviceName := "/dev/sda1"; BlockDeviceMappings := [] |}.

Definition an_instance (InstanceId : string) (code : Z) : instance :=
  {| InstanceId := InstanceId;
     State := Some {| Code := Some code; state_Name := None |};
     instance_Platform := None |}.

(** Two regions, one of them without instances; a terminated and a
    running instance in the other. *)
Definition base : account :=
  {| regions := ["us-east-1"; "eu-west-1"];
     primary_account_id := "123456789012";
     reservations :=
       [("us-east-1",
         [ {| Instances := Some [an_instance "i-1" 48;
                                 an_instance "i-2" 16] |} ])];
     images := [];
     load_error := None;
     snapshot := None;
     permissions := [];
     modify_is_lost := false;
     copy_error := None |}.

Definition with_images (l : list image_data) (a : account) : account :=
  {| regions := regions a; primary_account_id := primary_account_id a;
     reservations := reservations a; images := l;
     load_error := load_error a; snapshot := snapshot a;
     permissions := permissions a; modify_is_lost := modify_is_lost a;
     copy_error := copy_error a |}.

Definition with_load_error (e : error_response) (a : account) : account :=
  {| regions := regions a; primary_account_id := primary_account_id a;
     reservations := reservations a; images := images a;
     load_error := Some e; snapshot := snapshot a;
     permissions := permissions a; modify_is_lost := modify_is_lost a;
     copy_error := copy_error a |}.

Definition with_snapshot (s : snapshot_data) (a : account) : account :=
  {| regions := regions a; primary_account_id := primary_account_id a;
     reservations := reservations a; images := images a;
     load_error := load_error a; snapshot := Some s;
     permissions := permissions a; modify_is_lost := modify_is_lost a;
     copy_error := copy_error a |}.

Definition with_lost_modify (a : account) : account :=
  {| regions := regions a; primary_account_id := primary_account_id a;
     reservations := reservations a; images := images a;
     load_error := load_error a; snapshot := snapshot a;
     permissions := permissions a; modify_is_lost := true;
     copy_error := copy_error a |}.

Definition with_copy_error (e : error_response) (a : account) : account :=
  {| regions := regions a; primary_account_id := primary_account_id a;
     reservations := reservations a; images := images a;
     load_error := load_error a; snapshot := snapshot a;
     permissions := permissions a; modify_is_lost := modify_is_lost a;
     copy_error := Some e |}.

Definition customer : Session := CustomerSession "arn:aws:iam::123456789012:role/test".

Definition the_snapshot : Snapshot :=
  get_snapshot customer "snap-1" "us-east-1".

End Sim.

(** ** An account in which some requests fail *)

Module Faulty.

(** Which requests fail, and with what. *)
Definition plan : Type := forall R : Type, request R -> option exception.

(** A request of the plan raises; any other is answered by the
    simulated account. *)
Definition answer {R : Type} (q : request R) (w : Sim.account * plan)
  : outcome R * (Sim.account * plan) :=
  match snd w R q with
  | Some e => (Raise e, w)
  | None => let (r, a) := Sim.answer q (fst w) in (r, (a, snd w))
  end.

Definition cloud : Cloud :=
  {| World := Sim.account * plan; respond := @answer |}.

Definition start (a : Sim.account) (p : plan) : @state cloud :=
  @Build_state cloud (a, p) [].

Definition load_fails (e : exception) : plan :=
  fun R q => match q with ImageLoad _ _ => Some e | _ => None end.

Definition copy_fails (e : exception) : plan :=
  fun R q => match q with CopyImage _ _ _ _ => Some e | _ => None end.

Definition tags_fail (e : exception) : plan :=
  fun R q => match q with CreateTags _ _ _ => Some e | _ => None end.

Definition modify_fails (e : exception) : plan :=
  fun R q =>
    match q with
    | SnapshotModifyAttribute _ _ _ _ _ _ _ => Some e
    | _ => None
    end.

Definition describe_fails_in (region : string) (e : exception) : plan :=
  fun R q =>
    match q with
    | DescribeInstances ec2 _ =>
        match region_name ec2 with
        | Some r => if String.eqb r region then Some e else None
        | None => None
        end
    | _ => None
    end.

End Faulty.

(** ** An account that does not change

    The answers are those of a simulated account with a plan of failing
    requests, and no request changes them. *)

Module Frozen.

Definition no_faults : Faulty.plan := fun _ _ => None.

Definition cloud (a : Sim.account) (p : Faulty.plan) : Cloud :=
  {| World := unit;
     respond := fun R q _ => (fst (Faulty.answer q (a, p)), tt) |}.

Definition start (a : Sim.account) (p : Faulty.plan) : @state (cloud a p) :=
  @Build_state (cloud a p) tt [].

End Frozen.

(** * Properties *)

(** ** Running the monad *)

Section Run.
Context `{Cloud}.

Lemma call_eq {R} (q : request R) (st : state) :
  call q st = (answer_in st q, after st q).
Proof.
  unfold call, answer_in, after.
  destruct (respond q (world st)); reflexivity.
Qed.

Lemma bind_call_ok {R B} (q : request R) (k : R -> M B) st r :
  answer_in st q = Ok r -> bind (call q) k st = k r (after st q).
Proof. intros E. unfold bind. rewrite call_eq, E. reflexivity. Qed.

Lemma bind_call_raise {R B} (q : request R) (k : R -> M B) st e :
  answer_in st q = Raise e ->
  bind (call q) k st = (Raise e, after st q).
Proof. intros E. unfold bind. rewrite call_eq, E. reflexivity. Qed.

Lemma bind_ret {A B} (a : A) (k : A -> M B) st : bind (ret a) k st = k a st.
Proof. reflexivity. Qed.

End Run.

Lemma eqb_same (s : string) : String.eqb s s = true.
Proof. apply String.eqb_refl. Qed.

Lemma eqb_other (s t : string) : s <> t -> String.eqb s t = false.
Proof. apply String.eqb_neq. Qed.

(** ** Instance states *)

Lemma is_running_iff (code : Z) : is_running code = true <-> code = 16.
Proof. unfold is_running. simpl. apply Z.eqb_eq. Qed.

(** ** Image readiness *)

Section ImageState.
Context `{Cloud}.

Lemma load_eq image st :
  load image st =
    (match answer_in st (load_of image) with
     | Ok data => Ok (loaded image data)
     | Raise e => Raise e
     end, after st (load_of image)).
Proof.
  unfold load, bind. rewrite call_eq.
  destruct (answer_in st (load_of image)); reflexivity.
Qed.

(** [check_image_state], by what [image.load()] gave. *)
Lemma check_image_state_eq image st :
  check_image_state image st
  = (match answer_in st (load_of image) with
     | Ok (Some data) =>
         if String.eqb (image_State data) "available"
         then Ok (loaded image (Some data))
         else if String.eqb (image_State data) "failed"
         then Raise (AwsImageError (has_state (id image) data))
         else Raise (ImageNotReadyException (has_state (id image) data))
     | Ok None => Raise (AwsImageError (probably_deregistered (id image)))
     | Raise (ClientError r) =>
         if PyStr.endswith (error_Code r) ".NotFound"
         then Raise (AwsImageError
                       (cannot_be_loaded_because
                          (id image) (error_Message r)))
         else Raise (ClientError r)
     | Raise e => Raise e
     end, after st (load_of image)).
Proof.
  unfold check_image_state, bind, try_except. rewrite load_eq.
  destruct (answer_in st (load_of image)) as [[data |] | e].
  - simpl. destruct (String.eqb (image_State data) "available");
      [reflexivity |].
    destruct (String.eqb (image_State data) "failed"); reflexivity.
  - reflexivity.
  - destruct e; try reflexivity.
    destruct (PyStr.endswith (error_Code response) ".NotFound");
      reflexivity.
Qed.

(** C1.  What [check_image_state] does, by what [image.load()] gave:
    with metadata whose state is "available" it returns normally; with
    state "failed" it raises [AwsImageError]; with any other state it
    raises [ImageNotReadyException]; when the load raised a
    [ClientError] whose code ends in ".NotFound" it raises
    [AwsImageError]; when the load left no metadata it raises
    [AwsImageError]. *)
Theorem check_image_state_outcomes (image : Image) (st : state) :
  (forall data,
      answer_in st (load_of image) = Ok (Some data) ->
      image_State data = "available" ->
      check_image_state image st
      = (Ok (loaded image (Some data)), after st (load_of image)))
  /\ (forall data,
      answer_in st (load_of image) = Ok (Some data) ->
      image_State data = "failed" ->
      check_image_state image st
      = (Raise (AwsImageError (has_state (id image) data)),
         after st (load_of image)))
  /\ (forall data,
      answer_in st (load_of image) = Ok (Some data) ->
      image_State data <> "available" ->
      image_State data <> "failed" ->
      check_image_state image st
      = (Raise (ImageNotReadyException (has_state (id image) data)),
         after st (load_of image)))
  /\ (forall r,
      answer_in st (load_of image) = Raise (ClientError r) ->
      PyStr.endswith (error_Code r) ".NotFound" = true ->
      check_image_state image st
      = (Raise (AwsImageError
                  (cannot_be_loaded_because (id image) (error_Message r))),
         after st (load_of image)))
  /\ (answer_in st (load_of image) = Ok None ->
      check_image_state image st
      = (Raise (AwsImageError (probably_deregistered (id image))),
         after st (load_of image))).
Proof.
  rewrite check_image_state_eq.
  split; [| split; [| split; [| split]]].
  - intros data E Hs. rewrite E, Hs. reflexivity.
  - intros data E Hs. rewrite E, Hs. reflexivity.
  - intros data E Ha Hf.
    rewrite E, (eqb_other _ _ Ha), (eqb_other _ _ Hf). reflexivity.
  - intros r E Hn. rewrite E, Hn. reflexivity.
  - intros E. rewrite E. reflexivity.
Qed.

End ImageState.

Lemma check_image_state_outcomes_witness :
  let image := new_Image Sim.customer "us-east-1" "ami-1" in
  let st s := Sim.start (Sim.with_images [Sim.an_image s "rhel"] Sim.base) in
  let gone :=
    Sim.start
      (Sim.with_load_error
         {| error_Code := "InvalidAMIID.NotFound";
            error_Message := "The image id does not exist" |} Sim.base) in
  check_image_state image (st "available")
  = (Ok (loaded image (Some (Sim.an_image "available" "rhel"))),
     after (st "available") (load_of image))
  /\ check_image_state image (st "failed")
     = (Raise (AwsImageError
                 (has_state "ami-1" (Sim.an_image "failed" "rhel"))),
        after (st "failed") (load_of image))
  /\ check_image_state image (st "pending")
     = (Raise (ImageNotReadyException
                 (has_state "ami-1" (Sim.an_image "pending" "rhel"))),
        after (st "pending") (load_of image))
  /\ check_image_state image gone
     = (Raise (AwsImageError
                 (cannot_be_loaded_because
                    "ami-1" "The image id does not exist")),
        after gone (load_of image))
  /\ check_image_state image (Sim.start Sim.base)
     = (Raise (AwsImageError (probably_deregistered "ami-1")),
        after (Sim.start Sim.base) (load_of image)).
Proof.
  intros image st gone.
  destruct (check_image_state_outcomes image (st "available"))
    as (Ha & _).
  destruct (check_image_state_outcomes image (st "failed"))
    as (_ & Hf & _).
  destruct (check_image_state_outcomes image (st "pending"))
    as (_ & _ & Hp & _).
  destruct (check_image_state_outcomes image gone)
    as (_ & _ & _ & Hg & _).
  destruct (check_image_state_outcomes image (Sim.start Sim.base))
    as (_ & _ & _ & _ & Hn).
  split; [| split; [| split; [| split]]].
  - apply Ha; reflexivity.
  - apply Hf; reflexivity.
  - apply Hp; [reflexivity | discriminate | discriminate].
  - apply (Hg {| error_Code := "InvalidAMIID.NotFound";
                 error_Message := "The image id does not exist" |});
      reflexivity.
  - apply Hn; reflexivity.
Defined.

(** ** Copying an image *)

Section CopyAmi.
Context `{Cloud}.

Lemma get_ami_eq session image_id source_region st :
  get_ami session image_id source_region st
  = match check_image_state
            (new_Image session source_region image_id) st with
    | (Ok image, st') => (Ok (Some image), st')
    | (Raise (AwsImageError m), st') => (Ok None, st')
    | (Raise e, st') => (Raise e, st')
    end.
Proof.
  unfold get_ami, try_except, bind.
  destruct (check_image_state _ st) as [[image | e] st']; [reflexivity |].
  destruct e; reflexivity.
Qed.

Lemma length_slice_to n s : (String.length (PyStr.slice_to n s) <= n)%nat.
Proof.
  revert s. induction n as [| n IH]; intros s; simpl; [lia |].
  destruct s as [| c s]; simpl; [lia |].
  specialize (IH s). lia.
Qed.

(** C4.  When loading the image finds none -- the load leaves no
    metadata (the describe behind it had no result), or raises a
    not-found [ClientError], or the image's state is "failed" --
    [copy_ami] returns [None] without raising, and the load is the only
    request it issued: no copy, no tags. *)
Theorem copy_ami_image_gone session image_id source_region st :
  let image := new_Image session source_region image_id in
  answer_in st (load_of image) = Ok None
  \/ (exists r, answer_in st (load_of image) = Raise (ClientError r)
                /\ PyStr.endswith (error_Code r) ".NotFound" = true)
  \/ (exists data, answer_in st (load_of image) = Ok (Some data)
                   /\ image_State data = "failed") ->
  copy_ami session image_id source_region st
  = (Ok None, after st (load_of image))
  /\ trace (snd (copy_ami session image_id source_region st))
     = (trace st ++ [Called (load_of image)])%list.
Proof.
  intros image Hgone.
  assert (E : copy_ami session image_id source_region st
              = (Ok None, after st (load_of image))).
  { unfold copy_ami, bind. rewrite get_ami_eq. fold image.
    rewrite check_image_state_eq.
    destruct Hgone as [E | [(r & E & Hr) | (data & E & Hs)]].
    - rewrite E. reflexivity.
    - rewrite E, Hr. reflexivity.
    - rewrite E, Hs. reflexivity. }
  rewrite E. split; reflexivity.
Qed.

(** C3.  When the source image is available and the copy and the
    tagging succeed, [copy_ami] names the copy
    "cloudigrade reference copy (<name>)" cut to 128 characters, tags
    it with that name as "Name" and with the source image's id and
    name, and returns the copy's id.  The name has at most 128
    characters and begins with the marker; for a source name of 200
    "X" it has exactly 128. *)
Theorem copy_ami_names_and_tags session image_id source_region st
    data new_image :
  let image := new_Image session source_region image_id in
  let ec2 := client session source_region in
  let new_name :=
    PyStr.slice_to 128
      ("cloudigrade reference copy (" +:+ Name data +:+ ")") in
  let copy := CopyImage ec2 new_name image_id source_region in
  let tags :=
    CreateTags ec2 [new_ImageId new_image]
      [ {| Key := "Name"; Value := new_name |};
        {| Key := "cloudigrade original image id"; Value := image_id |};
        {| Key := "cloudigrade original image name";
           Value := Name data |} ] in
  let st1 := after st (load_of image) in
  let st2 := after st1 copy in
  answer_in st (load_of image) = Ok (Some data) ->
  image_State data = "available" ->
  answer_in st1 copy = Ok new_image ->
  answer_in st2 tags = Ok tt ->
  copy_ami session image_id source_region st
  = (Ok (Some (new_ImageId new_image)), after st2 tags)
  /\ (String.length new_name <= 128)%nat
  /\ PyStr.startswith new_name "cloudigrade reference copy (" = true
  /\ (Name data = PyStr.repeat "X" 200 ->
      String.length new_name = 128%nat).
Proof.
  intros image ec2 new_name copy tags st1 st2 Eload Hs Ecopy Etags.
  split; [| split; [| split]].
  - unfold copy_ami, bind at 1. rewrite get_ami_eq. fold image.
    rewrite check_image_state_eq, Eload, Hs. simpl String.eqb.
    cbv iota. fold st1.
    unfold attributes. simpl meta_data. cbv beta iota.
    rewrite bind_ret. fold ec2. unfold new_name_of. fold new_name.
    fold copy. rewrite (bind_call_ok _ _ _ _ Ecopy). fold st2.
    unfold copy_tags. simpl id. fold tags.
    rewrite (bind_call_ok _ _ _ _ Etags). reflexivity.
  - apply length_slice_to.
  - unfold new_name. vm_compute. reflexivity.
  - intros E. unfold new_name. rewrite E. vm_compute. reflexivity.
Qed.

End CopyAmi.

Lemma copy_ami_image_gone_witness :
  copy_ami Sim.customer "ami-1" "us-east-1" (Sim.start Sim.base)
  = (Ok None,
     after (Sim.start Sim.base)
       (load_of (new_Image Sim.customer "us-east-1" "ami-1")))
  /\ trace (snd (copy_ami Sim.customer "ami-1" "us-east-1"
                   (Sim.start Sim.base)))
     = [Called (load_of (new_Image Sim.customer "us-east-1" "ami-1"))].
Proof.
  apply (copy_ami_image_gone Sim.customer "ami-1" "us-east-1"
           (Sim.start Sim.base)).
  left. reflexivity.
Defined.

Lemma copy_ami_names_and_tags_witness :
  let name := PyStr.repeat "X" 200 in
  let st := Sim.start (Sim.with_images [Sim.an_image "available" name]
                         Sim.base) in
  let new_name := "cloudigrade reference copy (" +:+ PyStr.repeat "X" 100 in
  fst (copy_ami Sim.customer "ami-1" "us-east-1" st) = Ok (Some "copy-of-ami-1")
  /\ trace (snd (copy_ami Sim.customer "ami-1" "us-east-1" st))
     = [ Called (load_of (new_Image Sim.customer "us-east-1" "ami-1"));
         Called (CopyImage (client Sim.customer "us-east-1") new_name
                   "ami-1" "us-east-1");
         Called (CreateTags (client Sim.customer "us-east-1")
                   ["copy-of-ami-1"]
                   [ {| Key := "Name"; Value := new_name |};
                     {| Key := "cloudigrade original image id";
                        Value := "ami-1" |};
                     {| Key := "cloudigrade original image name";
                        Value := name |} ]) ]
  /\ String.length new_name = 128%nat.
Proof.
  intros name st new_name.
  destruct (copy_ami_names_and_tags Sim.customer "ami-1" "us-east-1" st
              (Sim.an_image "available" name)
              {| new_ImageId := "copy-of-ami-1" |})
    as (E & _ & _ & L); try reflexivity.
  rewrite E. split; [reflexivity | split; [reflexivity |]].
  exact (L eq_refl).
Defined.

(** ** Describing one image *)

Section DescribeImage.
Context `{Cloud}.

(** C5, as the code has it.  When the batch describe answers with an
    empty list, [describe_image] fails with Python's [IndexError], raised
    by indexing that list: an untyped error that names no image.  The
    describe is the only request issued. *)
Theorem describe_image_empty session image_id source_region st :
  let q := DescribeImages (client session source_region) [image_id] in
  answer_in st q = Ok [] ->
  describe_image session image_id source_region st
  = (Raise IndexError, after st q).
Proof.
  intros q E. unfold describe_image, describe_images.
  fold q. rewrite (bind_call_ok _ _ _ _ E). reflexivity.
Qed.

End DescribeImage.

Lemma describe_image_empty_witness :
  describe_image Sim.customer "ami-1" "us-east-1" (Sim.start Sim.base)
  = (Raise IndexError,
     after (Sim.start Sim.base)
       (DescribeImages (client Sim.customer "us-east-1") ["ami-1"])).
Proof.
  apply (describe_image_empty Sim.customer "ami-1" "us-east-1"
           (Sim.start Sim.base)).
  reflexivity.
Defined.

(** C5, as the specification has it, fails: an empty answer of the batch
    describe does not make [describe_image] raise [AwsImageError]. *)
Lemma describe_image_empty_not_AwsImageError :
  ~ (forall (C : Cloud) session image_id source_region (st : state),
        answer_in st (DescribeImages (client session source_region)
                        [image_id]) = Ok [] ->
        exists message,
          fst (describe_image session image_id source_region st)
          = Raise (AwsImageError message)).
Proof.
  intros claim.
  destruct (claim Sim.cloud Sim.customer "ami-1" "us-east-1"
              (Sim.start Sim.base) eq_refl) as [message E].
  vm_compute in E. discriminate E.
Qed.

(** ** The snapshot behind an image *)

(** C7.  [get_ami_snapshot_id] answers from the first mapping whose
    device name is the image's root device name, whatever the mappings
    before and after it are: it returns that mapping's ebs snapshot id,
    and the empty string when the mapping has none. *)
Theorem get_ami_snapshot_id_root (ami : image_data)
    (before after_it : list block_device_mapping)
    (mapping : block_device_mapping) :
  BlockDeviceMappings ami = (before ++ mapping :: after_it)%list ->
  Forall (fun m => DeviceName m <> RootDeviceName ami) before ->
  DeviceName mapping = RootDeviceName ami ->
  get_ami_snapshot_id ami
  = Some (match Ebs mapping with
          | Some e => match SnapshotId e with
                      | Some snapshot_id => snapshot_id
                      | None => ""
                      end
          | None => ""
          end).
Proof.
  unfold get_ami_snapshot_id. intros -> Hbefore Hroot.
  induction Hbefore as [| m before Hm _ IH]; simpl.
  - rewrite Hroot, eqb_same. simpl.
    destruct (Ebs mapping) as [e |]; reflexivity.
  - rewrite (eqb_other _ _ Hm). simpl. exact IH.
Qed.

Lemma get_ami_snapshot_id_root_witness :
  let sdb := {| DeviceName := "/dev/sdb"; Ebs := None |} in
  let sda1 e := {| DeviceName := "/dev/sda1"; Ebs := e |} in
  let ami l :=
    {| ImageId := "ami-1"; Name := "rhel"; image_State := "available";
       StateReason := None; image_Platform := None;
       RootDeviceName := "/dev/sda1"; BlockDeviceMappings := l |} in
  get_ami_snapshot_id
    (ami [sdb; sda1 (Some {| SnapshotId := Some "snap-1" |})])
  = Some "snap-1"
  /\ get_ami_snapshot_id (ami [sdb; sda1 (Some {| SnapshotId := None |})])
     = Some ""
  /\ get_ami_snapshot_id (ami [sdb; sda1 None]) = Some "".
Proof.
  intros sdb sda1 ami.
  assert (Hsdb : Forall (fun m => DeviceName m <> "/dev/sda1") [sdb]).
  { constructor; [discriminate | constructor]. }
  split; [| split].
  - apply (get_ami_snapshot_id_root
             (ami [sdb; sda1 (Some {| SnapshotId := Some "snap-1" |})])
             [sdb] [] (sda1 (Some {| SnapshotId := Some "snap-1" |})));
      [reflexivity | exact Hsdb | reflexivity].
  - apply (get_ami_snapshot_id_root
             (ami [sdb; sda1 (Some {| SnapshotId := None |})])
             [sdb] [] (sda1 (Some {| SnapshotId := None |})));
      [reflexivity | exact Hsdb | reflexivity].
  - apply (get_ami_snapshot_id_root (ami [sdb; sda1 None])
             [sdb] [] (sda1 None));
      [reflexivity | exact Hsdb | reflexivity].
Defined.

(** ** Copying a snapshot *)

Section CopySnapshot.
Context `{Cloud}.

(** C8.  [copy_snapshot] turns a [ClientError] whose code is
    "ResourceLimitExceeded" into [AwsSnapshotCopyLimitError], raises any
    other [ClientError] again as it is, and when the copy succeeds
    returns the "SnapshotId" of the answer. *)
Theorem copy_snapshot_outcomes snapshot_id source_region st :
  let q := SnapshotCopy boto3_resource snapshot_id source_region in
  (forall r,
      answer_in st q = Raise (ClientError r) ->
      error_Code r = "ResourceLimitExceeded" ->
      copy_snapshot snapshot_id source_region st
      = (Raise (AwsSnapshotCopyLimitError (error_Message r)), after st q))
  /\ (forall r,
      answer_in st q = Raise (ClientError r) ->
      error_Code r <> "ResourceLimitExceeded" ->
      copy_snapshot snapshot_id source_region st
      = (Raise (ClientError r), after st q))
  /\ (forall response,
      answer_in st q = Ok response ->
      copy_snapshot snapshot_id source_region st
      = (Ok (new_SnapshotId response), after st q)).
Proof.
  intros q. unfold copy_snapshot, bind, try_except.
  simpl snapshot_ec2. fold q. rewrite call_eq.
  split; [| split].
  - intros r E Hc. rewrite E, Hc. reflexivity.
  - intros r E Hc. rewrite E, (eqb_other _ _ Hc). reflexivity.
  - intros response E. rewrite E. reflexivity.
Qed.

End CopySnapshot.

Lemma copy_snapshot_outcomes_witness :
  let limit := {| error_Code := "ResourceLimitExceeded";
                  error_Message := "Too many snapshot copies" |} in
  let denied := {| error_Code := "UnauthorizedOperation";
                   error_Message := "Not authorized" |} in
  let st e := Sim.start (Sim.with_copy_error e Sim.base) in
  let q := SnapshotCopy boto3_resource "snap-1" "us-east-1" in
  copy_snapshot "snap-1" "us-east-1" (st limit)
  = (Raise (AwsSnapshotCopyLimitError "Too many snapshot copies"),
     after (st limit) q)
  /\ copy_snapshot "snap-1" "us-east-1" (st denied)
     = (Raise (ClientError denied), after (st denied) q)
  /\ copy_snapshot "snap-1" "us-east-1" (Sim.start Sim.base)
     = (Ok (Some "copy-of-snap-1"), after (Sim.start Sim.base) q).
Proof.
  intros limit denied st q.
  destruct (copy_snapshot_outcomes "snap-1" "us-east-1" (st limit))
    as (Hl & _).
  destruct (copy_snapshot_outcomes "snap-1" "us-east-1" (st denied))
    as (_ & Hd & _).
  destruct (copy_snapshot_outcomes "snap-1" "us-east-1"
              (Sim.start Sim.base)) as (_ & _ & Hs).
  split; [| split].
  - apply (Hl limit); reflexivity.
  - apply (Hd denied); [reflexivity | discriminate].
  - apply (Hs {| new_SnapshotId := Some "copy-of-snap-1" |}); reflexivity.
Defined.

(** ** Creating a volume *)

Section CreateVolume.
Context `{Cloud}.

Lemma check_snapshot_state_fresh ec2 snapshot_id st :
  check_snapshot_state (new_Snapshot ec2 snapshot_id) st
  = (match answer_in st (SnapshotLoad ec2 snapshot_id) with
    | Ok (Some data) =>
        if String.eqb (snapshot_State data) "completed" then Ok tt
        else if String.eqb (snapshot_State data) "error"
        then Raise (AwsSnapshotError
                      ("Snapshot " +:+ snapshot_id +:+ " has state "
                         +:+ snapshot_State data +:+ " at "
                         +:+ Progress data))
        else Raise (SnapshotNotReadyException
                      ("Snapshot " +:+ snapshot_id +:+ " has state "
                         +:+ snapshot_State data +:+ " at "
                         +:+ Progress data))
    | Ok None => Raise AttributeError
    | Raise e => Raise e
    end,
    after st (SnapshotLoad ec2 snapshot_id)).
Proof.
  unfold check_snapshot_state, snapshot_attributes, bind. simpl.
  rewrite call_eq.
  destruct (answer_in st (SnapshotLoad ec2 snapshot_id)) as [[data |] | e];
    try reflexivity.
  unfold ret at 1. cbv beta iota.
  destruct (String.eqb (snapshot_State data) "completed"); [reflexivity |].
  destruct (String.eqb (snapshot_State data) "error"); reflexivity.
Qed.

Lemma create_volume_eq snapshot_id zone st :
  create_volume snapshot_id zone st
  = match check_snapshot_state
            (new_Snapshot boto3_resource snapshot_id) st with
    | (Ok _, st') => call (CreateVolume boto3_resource snapshot_id zone) st'
    | (Raise e, st') => (Raise e, st')
    end.
Proof. reflexivity. Qed.

(** C9.  [create_volume] reads the snapshot's state first.  When it is
    "completed" the volume-creation request is issued, and its answer is
    the result.  When it is "error" [AwsSnapshotError] is raised, and for
    any other state [SnapshotNotReadyException]; in both cases reading
    the snapshot is the only request issued, so no volume was created. *)
Theorem create_volume_needs_completed snapshot_id zone st data :
  let read := SnapshotLoad boto3_resource snapshot_id in
  let create := CreateVolume boto3_resource snapshot_id zone in
  let message :=
    "Snapshot " +:+ snapshot_id +:+ " has state " +:+ snapshot_State data
      +:+ " at " +:+ Progress data in
  answer_in st read = Ok (Some data) ->
  (snapshot_State data = "completed" ->
   create_volume snapshot_id zone st
   = (answer_in (after st read) create, after (after st read) create))
  /\ (snapshot_State data = "error" ->
      create_volume snapshot_id zone st
      = (Raise (AwsSnapshotError message), after st read))
  /\ (snapshot_State data <> "completed" ->
      snapshot_State data <> "error" ->
      create_volume snapshot_id zone st
      = (Raise (SnapshotNotReadyException message), after st read))
  /\ (snapshot_State data <> "completed" ->
      trace (snd (create_volume snapshot_id zone st))
      = (trace st ++ [Called read])%list).
Proof.
  intros read create message E.
  rewrite create_volume_eq, check_snapshot_state_fresh.
  fold read create. rewrite E.
  split; [| split; [| split]].
  - intros Hs. rewrite Hs. simpl. apply call_eq.
  - intros Hs. subst message. rewrite Hs. reflexivity.
  - intros Hc He.
    rewrite (eqb_other _ _ Hc), (eqb_other _ _ He). reflexivity.
  - intros Hc. rewrite (eqb_other _ _ Hc).
    destruct (String.eqb (snapshot_State data) "error"); reflexivity.
Qed.

(** X13.  Whatever the environment answers -- also when reading the
    snapshot raises or finds nothing -- [create_volume] issues the
    volume-creation request only after the snapshot was read with state
    "completed"; otherwise reading the snapshot is its only request. *)
Lemma create_volume_only_when_completed snapshot_id zone st :
  let read := SnapshotLoad boto3_resource snapshot_id in
  let create := CreateVolume boto3_resource snapshot_id zone in
  trace (snd (create_volume snapshot_id zone st))
  = (trace st ++ [Called read])%list
  \/ (trace (snd (create_volume snapshot_id zone st))
      = (trace st ++ [Called read; Called create])%list
      /\ exists data, answer_in st read = Ok (Some data)
                      /\ snapshot_State data = "completed").
Proof.
  intros read create.
  rewrite create_volume_eq, check_snapshot_state_fresh. fold read create.
  destruct (answer_in st read) as [[data |] | e];
    [| left; reflexivity | left; reflexivity].
  destruct (String.eqb (snapshot_State data) "completed") eqn:Ec.
  - right. apply String.eqb_eq in Ec. rewrite call_eq. simpl.
    split; [| exists data; split; [reflexivity | exact Ec]].
    rewrite <- app_assoc. reflexivity.
  - left.
    destruct (String.eqb (snapshot_State data) "error"); reflexivity.
Qed.

End CreateVolume.

Lemma create_volume_needs_completed_witness :
  let st s :=
    Sim.start (Sim.with_snapshot
                 {| snapshot_State := s; Progress := "40%" |} Sim.base) in
  let read := SnapshotLoad boto3_resource "snap-1" in
  let create := CreateVolume boto3_resource "snap-1" "us-east-1a" in
  create_volume "snap-1" "us-east-1a" (st "completed")
  = (Ok "vol-0", after (after (st "completed") read) create)
  /\ create_volume "snap-1" "us-east-1a" (st "error")
     = (Raise (AwsSnapshotError "Snapshot snap-1 has state error at 40%"),
        after (st "error") read)
  /\ create_volume "snap-1" "us-east-1a" (st "pending")
     = (Raise (SnapshotNotReadyException
                 "Snapshot snap-1 has state pending at 40%"),
        after (st "pending") read)
  /\ trace (snd (create_volume "snap-1" "us-east-1a" (st "pending")))
     = [Called read].
Proof.
  intros st read create.
  destruct (create_volume_needs_completed "snap-1" "us-east-1a"
              (st "completed")
              {| snapshot_State := "completed"; Progress := "40%" |}
              eq_refl) as (Hc & _).
  destruct (create_volume_needs_completed "snap-1" "us-east-1a"
              (st "error")
              {| snapshot_State := "error"; Progress := "40%" |}
              eq_refl) as (_ & He & _).
  destruct (create_volume_needs_completed "snap-1" "us-east-1a"
              (st "pending")
              {| snapshot_State := "pending"; Progress := "40%" |}
              eq_refl) as (_ & _ & Hp & Ht).
  split; [| split; [| split]].
  - apply Hc. reflexivity.
  - apply He. reflexivity.
  - apply Hp; discriminate.
  - apply Ht. discriminate.
Defined.

(** ** The platform check *)

(** C10.  For a dict [is_windows] holds exactly when the "Platform"
    value, lowercased, is "windows" (so it holds for "Windows"); for an
    object it holds exactly when the [platform] attribute is the string
    "windows" itself (so it fails for "Windows"): the same platform value
    is classified differently in the two representations. *)
Theorem is_windows_by_representation :
  (forall p, is_windows (a_dict (Some p)) = true
             <-> PyStr.lower p = "windows")
  /\ is_windows (a_dict None) = false
  /\ (forall p, is_windows (an_object p) = true <-> p = Some "windows")
  /\ is_windows (a_dict (Some "Windows")) = true
  /\ is_windows (an_object (Some "Windows")) = false.
Proof.
  split; [| split; [| split; [| split]]].
  - intros p. simpl. apply String.eqb_eq.
  - reflexivity.
  - intros [p |]; simpl.
    + rewrite String.eqb_eq. split; [intros -> | intros [= ->]]; reflexivity.
    + split; discriminate.
  - reflexivity.
  - reflexivity.
Qed.

(** ** Instances in every region *)

Section Everywhere.
Context `{Cloud}.

Lemma not_terminated_code (i : instance) :
  not_terminated i = true -> state_code i <> Some 48.
Proof.
  unfold not_terminated. intros Hn Hc. rewrite Hc in Hn. discriminate Hn.
Qed.

Lemma dom_extend_regions region (rs : list reservation)
    (m : gmap string (list instance)) :
  dom (fold_left (extend_region region) rs m) = dom m.
Proof.
  revert m. induction rs as [| r rs IH]; intros m; simpl; [reflexivity |].
  rewrite IH. unfold extend_region. apply dom_alter_L.
Qed.

Lemma extend_region_clean region (r : reservation)
    (m : gmap string (list instance)) :
  (forall k l i, m !! k = Some l -> i ∈ l -> state_code i <> Some 48) ->
  forall k l i,
    extend_region region m r !! k = Some l -> i ∈ l ->
    state_code i <> Some 48.
Proof.
  intros Hm k l i Hl Hi. unfold extend_region in Hl.
  destruct (decide (region = k)) as [-> | Hne].
  - rewrite lookup_alter_eq in Hl.
    destruct (m !! k) as [l0 |] eqn:E; simpl in Hl; [| discriminate].
    injection Hl as <-.
    apply elem_of_app in Hi as [Hi | Hi].
    + exact (Hm k l0 i E Hi).
    + apply list_elem_of_filter in Hi as [Hp _].
      exact (not_terminated_code i Hp).
  - rewrite lookup_alter_ne in Hl by exact Hne.
    exact (Hm k l i Hl Hi).
Qed.

Lemma extend_regions_clean region (rs : list reservation)
    (m : gmap string (list instance)) :
  (forall k l i, m !! k = Some l -> i ∈ l -> state_code i <> Some 48) ->
  forall k l i,
    fold_left (extend_region region) rs m !! k = Some l -> i ∈ l ->
    state_code i <> Some 48.
Proof.
  revert m. induction rs as [| r rs IH]; intros m Hm; simpl.
  - exact Hm.
  - apply IH. apply extend_region_clean. exact Hm.
Qed.

Lemma insert_empty_clean region (m : gmap string (list instance)) :
  (forall k l i, m !! k = Some l -> i ∈ l -> state_code i <> Some 48) ->
  forall k l i,
    <[region := []]> m !! k = Some l -> i ∈ l -> state_code i <> Some 48.
Proof.
  intros Hm k l i Hl Hi.
  destruct (decide (region = k)) as [-> | Hne].
  - rewrite lookup_insert_eq in Hl. injection Hl as <-.
    apply elem_of_nil in Hi. destruct Hi.
  - rewrite lookup_insert_ne in Hl by exact Hne.
    exact (Hm k l i Hl Hi).
Qed.

(** The loop over the regions, when every describe is answered. *)
Lemma each_region_returns session (regions : list string) :
  (forall ec2 w, exists response,
        fst (respond (DescribeInstances ec2 None) w) = Ok response) ->
  forall (m : gmap string (list instance)) st,
    (forall k l i, m !! k = Some l -> i ∈ l -> state_code i <> Some 48) ->
    exists m' st',
      each_region session regions m st = (Ok m', st')
      /\ dom m' = dom m ∪ list_to_set regions
      /\ (forall k l i,
             m' !! k = Some l -> i ∈ l -> state_code i <> Some 48).
Proof.
  intros Hanswered.
  induction regions as [| region regions IH]; intros m st Hm.
  - exists m, st. simpl. split; [reflexivity |]. split; [| exact Hm].
    symmetry. apply (right_id_L ∅ (∪)).
  - simpl each_region.
    destruct (Hanswered (client session region) (world st))
      as [response E].
    rewrite (bind_call_ok _ _ _ _ E).
    edestruct IH as (m' & st' & Erun & Hdom & Hclean);
      [| exists m', st'; split; [exact Erun |]; split; [| exact Hclean]].
    + apply extend_regions_clean. apply insert_empty_clean. exact Hm.
    + rewrite Hdom, dom_extend_regions, dom_insert_L, list_to_set_cons.
      rewrite (comm_L (∪) {[region]} (dom m)).
      symmetry. apply (assoc_L (∪)).
Qed.

(** C6.  When the regions of the session are known and every describe
    is answered, [describe_instances_everywhere] returns a dict whose
    keys are exactly those regions -- each of them is mapped to a list,
    also one without instances -- and no instance in any of the lists
    has state code 48. *)
Theorem describe_instances_everywhere_regions session st
    (regions : list string) :
  answer_in st (GetRegions session) = Ok regions ->
  (forall ec2 w, exists response,
        fst (respond (DescribeInstances ec2 None) w) = Ok response) ->
  exists (running_instances : gmap string (list instance)) st',
    describe_instances_everywhere session st = (Ok running_instances, st')
    /\ dom running_instances = list_to_set regions
    /\ (forall region,
           region ∈ regions -> is_Some (running_instances !! region))
    /\ (forall region instances i,
           running_instances !! region = Some instances ->
           i ∈ instances ->
           state_code i <> Some (value terminated)).
Proof.
  intros Eregions Hanswered.
  unfold describe_instances_everywhere, get_regions.
  rewrite (bind_call_ok _ _ _ _ Eregions).
  destruct (each_region_returns session regions Hanswered ∅
              (after st (GetRegions session)))
    as (m & st' & Erun & Hdom & Hclean).
  { intros k l i Hl. rewrite lookup_empty in Hl. discriminate Hl. }
  exists m, st'. split; [exact Erun |].
  assert (Hkeys : dom m = list_to_set regions).
  { rewrite Hdom, dom_empty_L. apply (left_id_L ∅ (∪)). }
  split; [exact Hkeys |]. split; [| exact Hclean].
  intros region Hin. apply elem_of_dom. rewrite Hkeys.
  apply elem_of_list_to_set. exact Hin.
Qed.

End Everywhere.

Lemma describe_instances_everywhere_regions_witness :
  exists (running_instances : gmap string (list instance)) st',
    describe_instances_everywhere Sim.customer (Sim.start Sim.base)
    = (Ok running_instances, st')
    /\ dom running_instances = list_to_set ["us-east-1"; "eu-west-1"]
    /\ (forall region,
           region ∈ ["us-east-1"; "eu-west-1"] ->
           is_Some (running_instances !! region))
    /\ (forall region instances i,
           running_instances !! region = Some instances ->
           i ∈ instances ->
           state_code i <> Some (value terminated)).
Proof.
  apply (describe_instances_everywhere_regions Sim.customer
           (Sim.start Sim.base) ["us-east-1"; "eu-west-1"]).
  - reflexivity.
  - intros ec2 w. eexists. reflexivity.
Defined.

(** In the simulated account the terminated instance is dropped, and the
    region without instances is kept with an empty list. *)
Example describe_instances_everywhere_base :
  let m := fst (describe_instances_everywhere Sim.customer
                  (Sim.start Sim.base)) in
  match m with
  | Ok running_instances =>
      running_instances !! "us-east-1" = Some [Sim.an_instance "i-2" 16]
      /\ running_instances !! "eu-west-1" = Some []
  | Raise _ => False
  end.
Proof. vm_compute. split; reflexivity. Qed.

(** ** Snapshot permissions *)

Section Ownership.
Context `{Cloud}.

(** The loop over the re-read permissions, when every entry has a
    "UserId". *)
Lemma for_user_all_users {A} user_id
    (users : list create_volume_permission) (found after_loop : M A) :
  Forall (fun p => UserId p <> None) users ->
  for_user user_id users found after_loop
  = if existsb (is_user user_id) users then found else after_loop.
Proof.
  induction 1 as [| p users Hp _ IH]; simpl; [reflexivity |].
  unfold is_user at 1.
  destruct (UserId p) as [u |]; [| contradiction].
  destruct (String.eqb u user_id); simpl; [reflexivity | exact IH].
Qed.

(** The loop stops with [KeyError] at an entry without "UserId". *)
Lemma for_user_no_UserId {A} user_id
    (users : list create_volume_permission) (found after_loop : M A)
    (p : create_volume_permission) :
  UserId p = None ->
  for_user user_id (p :: users) found after_loop = raise (KeyError "UserId").
Proof. intros E. simpl. rewrite E. reflexivity. Qed.

Lemma is_user_present user_id (users : list create_volume_permission) :
  existsb (is_user user_id) users = true
  <-> Some user_id ∈ map UserId users.
Proof.
  induction users as [| p users IH]; simpl.
  - split; [discriminate | intros Hin; inversion Hin].
  - rewrite orb_true_iff, IH, elem_of_cons. unfold is_user.
    destruct (UserId p) as [u |].
    + rewrite String.eqb_eq.
      split; (intros [E | Hin]; [left | right; exact Hin]);
        congruence.
    + split; (intros [E | Hin]; [discriminate E | right; exact Hin]).
Qed.

(** What [add_snapshot_ownership] does when the re-read permissions all
    carry a "UserId": it issues the "add" modification, re-reads, and
    returns normally exactly when the account id is among the re-read
    entries; otherwise it raises [AwsSnapshotNotOwnedError]. *)
Lemma add_snapshot_ownership_verified snapshot st user_id response :
  let modify :=
    SnapshotModifyAttribute (snapshot_ec2 snapshot) (snapshot_id snapshot)
      "createVolumePermission" [user_id] [] "add" [user_id] in
  let read :=
    SnapshotDescribeAttribute (snapshot_ec2 snapshot)
      (snapshot_id snapshot) "createVolumePermission" in
  let st1 := after st GetPrimaryAccountId in
  let st2 := after st1 modify in
  answer_in st GetPrimaryAccountId = Ok user_id ->
  answer_in st1 modify = Ok tt ->
  answer_in st2 read = Ok response ->
  Forall (fun p => UserId p <> None) (CreateVolumePermissions response) ->
  add_snapshot_ownership snapshot st
  = (if existsb (is_user user_id) (CreateVolumePermissions response)
     then Ok tt
     else Raise (AwsSnapshotNotOwnedError
                   (no_permissions (snapshot_id snapshot) user_id)),
     after st2 read).
Proof.
  intros modify read st1 st2 Eid Emodify Eread Husers.
  unfold add_snapshot_ownership, _get_primary_account_id.
  rewrite (bind_call_ok _ _ _ _ Eid). fold st1 modify.
  rewrite (bind_call_ok _ _ _ _ Emodify). fold st2 read.
  rewrite (bind_call_ok _ _ _ _ Eread).
  rewrite (for_user_all_users _ _ _ _ Husers).
  destruct (existsb _ _); reflexivity.
Qed.

(** The same for [remove_snapshot_ownership]: it raises
    [AwsSnapshotOwnedError] exactly when the account id is still among
    the re-read entries. *)
Lemma remove_snapshot_ownership_verified snapshot st user_id response :
  let modify :=
    SnapshotModifyAttribute (snapshot_ec2 snapshot) (snapshot_id snapshot)
      "createVolumePermission" [] [user_id] "remove" [user_id] in
  let read :=
    SnapshotDescribeAttribute (snapshot_ec2 snapshot)
      (snapshot_id snapshot) "createVolumePermission" in
  let st1 := after st GetPrimaryAccountId in
  let st2 := after st1 modify in
  answer_in st GetPrimaryAccountId = Ok user_id ->
  answer_in st1 modify = Ok tt ->
  answer_in st2 read = Ok response ->
  Forall (fun p => UserId p <> None) (CreateVolumePermissions response) ->
  remove_snapshot_ownership snapshot st
  = (if existsb (is_user user_id) (CreateVolumePermissions response)
     then Raise (AwsSnapshotOwnedError
                   (failed_to_remove (snapshot_id snapshot) user_id))
     else Ok tt,
     after st2 read).
Proof.
  intros modify read st1 st2 Eid Emodify Eread Husers.
  unfold remove_snapshot_ownership, _get_primary_account_id.
  rewrite (bind_call_ok _ _ _ _ Eid). fold st1 modify.
  rewrite (bind_call_ok _ _ _ _ Emodify). fold st2 read.
  rewrite (bind_call_ok _ _ _ _ Eread).
  rewrite (for_user_all_users _ _ _ _ Husers).
  destruct (existsb _ _); reflexivity.
Qed.

End Ownership.

(** C2, at a public snapshot.  AWS lists the permission of a public
    snapshot as [{"Group": "all"}], an entry without "UserId".  On such a
    snapshot [add_snapshot_ownership] issues the modification, and the
    re-read list does contain the account id, yet the function raises
    [KeyError] instead of returning; when the modification is lost it
    raises [KeyError] instead of [AwsSnapshotNotOwnedError]; and
    [remove_snapshot_ownership], with the account id still in the
    re-read list, raises [KeyError] instead of [AwsSnapshotOwnedError]. *)
Theorem snapshot_ownership_public_snapshot :
  let me := Sim.primary_account_id Sim.base in
  let public := Sim.set_permissions [Sim.everyone] Sim.base in
  let shared := Sim.set_permissions [Sim.everyone; Sim.user me] Sim.base in
  add_snapshot_ownership Sim.the_snapshot (Sim.start public)
  = (Raise (KeyError "UserId"),
     {| world := (shared : @World Sim.cloud);
        trace :=
          [ Called GetPrimaryAccountId;
            Called (SnapshotModifyAttribute
                      (client Sim.customer "us-east-1") "snap-1"
                      "createVolumePermission" [me] [] "add" [me]);
            Called (SnapshotDescribeAttribute
                      (client Sim.customer "us-east-1") "snap-1"
                      "createVolumePermission") ] |})
  /\ Some me ∈ map UserId (Sim.permissions shared)
  /\ fst (add_snapshot_ownership Sim.the_snapshot
            (Sim.start (Sim.with_lost_modify public)))
     = Raise (KeyError "UserId")
  /\ fst (remove_snapshot_ownership Sim.the_snapshot
            (Sim.start (Sim.with_lost_modify shared)))
     = Raise (KeyError "UserId").
Proof.
  split; [reflexivity |]. split; [| split; reflexivity].
  simpl. apply list_elem_of_further, list_elem_of_here.
Qed.

(** * Further properties of the module *)

(** ** Strings *)

Lemma endswith_iff (s suffix : string) :
  PyStr.endswith s suffix = true <-> exists p, s = p +:+ suffix.
Proof.
  induction s as [| c s IH].
  - destruct suffix as [| d suffix]; simpl.
    + split; [exists ""; reflexivity | reflexivity].
    + split; [discriminate |].
      intros [[| c p] E]; discriminate E.
  - change (PyStr.endswith (String c s) suffix)
      with (if String.eqb (String c s) suffix then true
            else PyStr.endswith s suffix).
    destruct (String.eqb (String c s) suffix) eqn:Es.
    + apply String.eqb_eq in Es. split; [| reflexivity].
      intros _. exists "". exact Es.
    + apply String.eqb_neq in Es. rewrite IH. split.
      * intros [p E]. exists (String c p). simpl. rewrite E. reflexivity.
      * intros [[| d p] E]; simpl in E.
        -- destruct Es. exact E.
        -- injection E as _ E. exists p. exact E.
Qed.

Lemma slice_to_all n s :
  (String.length s <= n)%nat -> PyStr.slice_to n s = s.
Proof.
  revert s. induction n as [| n IH]; intros [| c s] Hl; simpl in *;
    try reflexivity; [lia |].
  rewrite IH by lia. reflexivity.
Qed.

Lemma slice_to_app n s t :
  (n <= String.length s)%nat ->
  PyStr.slice_to n (s +:+ t) = PyStr.slice_to n s.
Proof.
  revert s. induction n as [| n IH]; intros [| c s] Hl; simpl in *;
    try reflexivity; [lia |].
  rewrite IH by lia. reflexivity.
Qed.

Lemma length_slice_to_exact n s :
  (n <= String.length s)%nat -> String.length (PyStr.slice_to n s) = n.
Proof.
  revert s. induction n as [| n IH]; intros [| c s] Hl; simpl in *;
    try reflexivity; [lia |].
  rewrite IH by lia. reflexivity.
Qed.

Lemma length_append s t :
  String.length (s +:+ t) = (String.length s + String.length t)%nat.
Proof. induction s as [| c s IH]; simpl; [reflexivity | rewrite IH; lia]. Qed.

Lemma new_name_of_eq name :
  new_name_of name
  = "cloudigrade reference copy (" +:+ PyStr.slice_to 100 (name +:+ ")").
Proof. reflexivity. Qed.

(** X8.  The name of a copy: a source name of at most 99 characters is
    kept whole between the marker and the closing parenthesis; from 100
    characters on, the copy's name is the marker and the first 100
    characters of the source name -- 128 characters, the closing
    parenthesis cut off. *)
Theorem new_name_of_lengths (name : string) :
  ((String.length name <= 99)%nat ->
   new_name_of name = "cloudigrade reference copy (" +:+ name +:+ ")")
  /\ ((100 <= String.length name)%nat ->
      new_name_of name
      = "cloudigrade reference copy (" +:+ PyStr.slice_to 100 name
      /\ String.length (new_name_of name) = 128%nat).
Proof.
  rewrite new_name_of_eq. split.
  - intros Hl. rewrite slice_to_all; [reflexivity |].
    rewrite length_append. simpl. lia.
  - intros Hl. rewrite slice_to_app by exact Hl.
    split; [reflexivity |].
    rewrite length_append, length_slice_to_exact by exact Hl.
    reflexivity.
Qed.

Lemma new_name_of_lengths_witness :
  new_name_of "rhel-8" = "cloudigrade reference copy (rhel-8)"
  /\ new_name_of (PyStr.repeat "X" 100)
     = "cloudigrade reference copy (" +:+ PyStr.repeat "X" 100.
Proof.
  split.
  - apply (proj1 (new_name_of_lengths "rhel-8")). simpl. lia.
  - apply (proj2 (new_name_of_lengths (PyStr.repeat "X" 100))).
    simpl. lia.
Defined.

(** ** Loading and fetching an image *)

Section FetchImage.
Context `{Cloud}.

(** X1.  Errors of [image.load()] in [check_image_state]: a
    [ClientError] whose code is of the form "<prefix>.NotFound" becomes
    [AwsImageError]; a [ClientError] with any other code, and any
    exception that is not a [ClientError], is raised on unchanged. *)
Theorem check_image_state_load_errors (image : Image) (st : state) :
  (forall r p,
      answer_in st (load_of image) = Raise (ClientError r) ->
      error_Code r = p +:+ ".NotFound" ->
      check_image_state image st
      = (Raise (AwsImageError
                  (cannot_be_loaded_because (id image) (error_Message r))),
         after st (load_of image)))
  /\ (forall r,
      answer_in st (load_of image) = Raise (ClientError r) ->
      (forall p, error_Code r <> p +:+ ".NotFound") ->
      check_image_state image st
      = (Raise (ClientError r), after st (load_of image)))
  /\ (forall e,
      answer_in st (load_of image) = Raise e ->
      (forall r, e <> ClientError r) ->
      check_image_state image st = (Raise e, after st (load_of image))).
Proof.
  rewrite check_image_state_eq. split; [| split].
  - intros r p E Hc. rewrite E.
    assert (Hn : PyStr.endswith (error_Code r) ".NotFound" = true).
    { apply endswith_iff. exists p. exact Hc. }
    rewrite Hn. reflexivity.
  - intros r E Hc. rewrite E.
    destruct (PyStr.endswith (error_Code r) ".NotFound") eqn:Hn;
      [| reflexivity].
    apply endswith_iff in Hn as [p Hp]. destruct (Hc p Hp).
  - intros e E He. rewrite E.
    destruct e; try reflexivity. destruct (He response eq_refl).
Qed.

(** X2.  Whatever the environment answers, [check_image_state] issues
    one request, the load of the image, and nothing else. *)
Theorem check_image_state_one_request (image : Image) (st : state) :
  snd (check_image_state image st) = after st (load_of image)
  /\ trace (snd (check_image_state image st))
     = (trace st ++ [Called (load_of image)])%list.
Proof. rewrite check_image_state_eq. split; reflexivity. Qed.

(** X3.  An image that [get_ami] returns has been loaded, carries the
    requested id, and its state is "available". *)
Theorem get_ami_available_only session image_id source_region st
    (image : Image) st' :
  get_ami session image_id source_region st = (Ok (Some image), st') ->
  id image = image_id
  /\ exists data,
       meta_data image = Some data
       /\ image_State data = "available"
       /\ answer_in st (load_of (new_Image session source_region image_id))
          = Ok (Some data).
Proof.
  rewrite get_ami_eq, check_image_state_eq.
  destruct (answer_in st _) as [[data |] | e] eqn:E.
  - destruct (String.eqb (image_State data) "available") eqn:Ha.
    + intros [= <- _]. split; [reflexivity |].
      exists data. apply String.eqb_eq in Ha. repeat split; assumption.
    + destruct (String.eqb (image_State data) "failed"); discriminate.
  - discriminate.
  - destruct e; try discriminate.
    destruct (PyStr.endswith (error_Code response) ".NotFound");
      discriminate.
Qed.

(** X4.  [get_ami] returns [None] in exactly four cases: the load left
    no metadata, the load raised a not-found [ClientError], the image's
    state is "failed", or the load itself raised [AwsImageError]. *)
Theorem get_ami_none_iff session image_id source_region st :
  let image := new_Image session source_region image_id in
  fst (get_ami session image_id source_region st) = Ok None
  <-> (answer_in st (load_of image) = Ok None
       \/ (exists r, answer_in st (load_of image) = Raise (ClientError r)
                     /\ PyStr.endswith (error_Code r) ".NotFound" = true)
       \/ (exists data, answer_in st (load_of image) = Ok (Some data)
                        /\ image_State data = "failed")
       \/ (exists message,
              answer_in st (load_of image)
              = Raise (AwsImageError message))).
Proof.
  intros image. rewrite get_ami_eq, check_image_state_eq. fold image.
  destruct (answer_in st (load_of image)) as [[data |] | e] eqn:E.
  - destruct (String.eqb (image_State data) "available") eqn:Ha.
    + apply String.eqb_eq in Ha. simpl. split; [discriminate |].
      intros [E' | [(r & E' & _) | [(d & [= <-] & Hf) | (m & E')]]];
        try discriminate E'.
      rewrite Ha in Hf. discriminate Hf.
    + destruct (String.eqb (image_State data) "failed") eqn:Hf; simpl.
      * apply String.eqb_eq in Hf. split; [| reflexivity].
        intros _. right. right. left. exists data. split; [reflexivity |].
        exact Hf.
      * apply String.eqb_neq in Hf. split; [discriminate |].
        intros [E' | [(r & E' & _) | [(d & [= <-] & Hd) | (m & E')]]];
          try discriminate E'.
        destruct (Hf Hd).
  - simpl. split; [| reflexivity]. intros _. left. reflexivity.
  - destruct e;
      try (simpl; split; [discriminate |];
           intros [E' | [(r & E' & _) | [(d & E' & _) | (m & E')]]];
           discriminate E').
    + destruct (PyStr.endswith (error_Code response) ".NotFound") eqn:Hn;
        simpl.
      * split; [| reflexivity]. intros _. right. left.
        exists response. split; [reflexivity | exact Hn].
      * split; [discriminate |].
        intros [E' | [(r & [= <-] & Hr) | [(d & E' & _) | (m & E')]]];
          try discriminate E'.
        rewrite Hn in Hr. discriminate Hr.
    + simpl. split; [| reflexivity]. intros _. right. right. right.
      exists message. reflexivity.
Qed.

Lemma copy_ami_eq session image_id source_region st :
  copy_ami session image_id source_region st
  = match get_ami session image_id source_region st with
    | (Ok None, st') => (Ok None, st')
    | (Ok (Some old_image), st') =>
        bind (attributes old_image)
          (fun data =>
             let new_name := new_name_of (Name data) in
             let ec2 := client session source_region in
             bind (call (CopyImage ec2 new_name image_id source_region))
               (fun new_image =>
                  bind (call (CreateTags ec2 [new_ImageId new_image]
                                (copy_tags new_name (id old_image)
                                   (Name data))))
                    (fun _ => ret (Some (new_ImageId new_image)))))
          st'
    | (Raise e, st') => (Raise e, st')
    end.
Proof.
  unfold copy_ami, bind at 1.
  destruct (get_ami session image_id source_region st) as [[[i |] | e] st'];
    reflexivity.
Qed.

(** X5.  An image that is neither "available" nor "failed" (a pending
    one, say) is not reported as gone: [get_ami] raises
    [ImageNotReadyException], and so does [copy_ami], which has then
    issued the load only. *)
Theorem copy_ami_not_ready session image_id source_region st data :
  let image := new_Image session source_region image_id in
  answer_in st (load_of image) = Ok (Some data) ->
  image_State data <> "available" ->
  image_State data <> "failed" ->
  get_ami session image_id source_region st
  = (Raise (ImageNotReadyException (has_state image_id data)),
     after st (load_of image))
  /\ copy_ami session image_id source_region st
     = (Raise (ImageNotReadyException (has_state image_id data)),
        after st (load_of image)).
Proof.
  intros image E Ha Hf.
  assert (G : get_ami session image_id source_region st
              = (Raise (ImageNotReadyException (has_state image_id data)),
                 after st (load_of image))).
  { rewrite get_ami_eq, check_image_state_eq. fold image.
    rewrite E, (eqb_other _ _ Ha), (eqb_other _ _ Hf). reflexivity. }
  split; [exact G |]. rewrite copy_ami_eq, G. reflexivity.
Qed.

(** X6.  When the copy request raises, [copy_ami] raises the same
    exception and never asks for tags: the load and the copy are the
    only requests issued. *)
Theorem copy_ami_copy_fails session image_id source_region st data e :
  let image := new_Image session source_region image_id in
  let copy :=
    CopyImage (client session source_region) (new_name_of (Name data))
      image_id source_region in
  let st1 := after st (load_of image) in
  answer_in st (load_of image) = Ok (Some data) ->
  image_State data = "available" ->
  answer_in st1 copy = Raise e ->
  copy_ami session image_id source_region st = (Raise e, after st1 copy)
  /\ trace (snd (copy_ami session image_id source_region st))
     = (trace st ++ [Called (load_of image); Called copy])%list.
Proof.
  intros image copy st1 Eload Hs Ecopy.
  assert (E : copy_ami session image_id source_region st
              = (Raise e, after st1 copy)).
  { rewrite copy_ami_eq, get_ami_eq, check_image_state_eq. fold image.
    rewrite Eload, Hs. simpl String.eqb. cbv iota. fold st1.
    unfold attributes. simpl meta_data. cbv beta iota. rewrite bind_ret.
    cbv zeta. fold copy. apply (bind_call_raise _ _ _ _ Ecopy). }
  rewrite E. split; [reflexivity |]. simpl.
  rewrite <- app_assoc. reflexivity.
Qed.

(** X7.  When tagging raises, [copy_ami] raises the same exception and
    returns no id, although the copy request was already answered: the
    load, the copy and the tagging were issued, in this order. *)
Theorem copy_ami_tags_fail session image_id source_region st
    data new_image e :
  let image := new_Image session source_region image_id in
  let ec2 := client session source_region in
  let copy :=
    CopyImage ec2 (new_name_of (Name data)) image_id source_region in
  let tags :=
    CreateTags ec2 [new_ImageId new_image]
      (copy_tags (new_name_of (Name data)) image_id (Name data)) in
  let st1 := after st (load_of image) in
  let st2 := after st1 copy in
  answer_in st (load_of image) = Ok (Some data) ->
  image_State data = "available" ->
  answer_in st1 copy = Ok new_image ->
  answer_in st2 tags = Raise e ->
  copy_ami session image_id source_region st = (Raise e, after st2 tags)
  /\ trace (snd (copy_ami session image_id source_region st))
     = (trace st
          ++ [Called (load_of image); Called copy; Called tags])%list.
Proof.
  intros image ec2 copy tags st1 st2 Eload Hs Ecopy Etags.
  assert (E : copy_ami session image_id source_region st
              = (Raise e, after st2 tags)).
  { rewrite copy_ami_eq, get_ami_eq, check_image_state_eq. fold image.
    rewrite Eload, Hs. simpl String.eqb. cbv iota. fold st1.
    unfold attributes. simpl meta_data. cbv beta iota. rewrite bind_ret.
    cbv zeta. fold ec2. fold copy.
    rewrite (bind_call_ok _ _ _ _ Ecopy). fold st2. simpl id. fold tags.
    apply (bind_call_raise _ _ _ _ Etags). }
  rewrite E. split; [reflexivity |]. simpl.
  rewrite <- !app_assoc. reflexivity.
Qed.

End FetchImage.

Lemma check_image_state_load_errors_witness :
  let image := new_Image Sim.customer "us-east-1" "ami-1" in
  let gone := {| error_Code := "InvalidAMIID.NotFound";
                 error_Message := "The image id does not exist" |} in
  let throttled := {| error_Code := "RequestLimitExceeded";
                      error_Message := "Request limit exceeded." |} in
  let st r := Sim.start (Sim.with_load_error r Sim.base) in
  let broken := Faulty.start Sim.base (Faulty.load_fails IndexError) in
  check_image_state image (st gone)
  = (Raise (AwsImageError
              (cannot_be_loaded_because
                 "ami-1" "The image id does not exist")),
     after (st gone) (load_of image))
  /\ check_image_state image (st throttled)
     = (Raise (ClientError throttled), after (st throttled) (load_of image))
  /\ check_image_state (H := Faulty.cloud) image broken
     = (Raise IndexError, after (H := Faulty.cloud) broken (load_of image)).
Proof.
  intros image gone throttled st broken.
  destruct (check_image_state_load_errors image (st gone)) as (Hg & _).
  destruct (check_image_state_load_errors image (st throttled))
    as (_ & Ht & _).
  destruct (check_image_state_load_errors (H := Faulty.cloud) image broken)
    as (_ & _ & Hb).
  split; [| split].
  - apply (Hg gone "InvalidAMIID"); reflexivity.
  - apply (Ht throttled); [reflexivity |].
    intros p Hp.
    assert (Hn : PyStr.endswith (error_Code throttled) ".NotFound" = true).
    { apply endswith_iff. exists p. exact Hp. }
    vm_compute in Hn. discriminate Hn.
  - apply (Hb IndexError); [reflexivity | discriminate].
Defined.

Lemma get_ami_available_only_witness :
  let image := new_Image Sim.customer "us-east-1" "ami-1" in
  let data := Sim.an_image "available" "rhel" in
  let st := Sim.start (Sim.with_images [data] Sim.base) in
  id (loaded image (Some data)) = "ami-1"
  /\ exists d,
       meta_data (loaded image (Some data)) = Some d
       /\ image_State d = "available"
       /\ answer_in st (load_of image) = Ok (Some d).
Proof.
  intros image data st.
  apply (get_ami_available_only Sim.customer "ami-1" "us-east-1" st
           (loaded image (Some data)) (after st (load_of image))).
  reflexivity.
Defined.

Lemma copy_ami_not_ready_witness :
  let image := new_Image Sim.customer "us-east-1" "ami-1" in
  let data := Sim.an_image "pending" "rhel" in
  let st := Sim.start (Sim.with_images [data] Sim.base) in
  get_ami Sim.customer "ami-1" "us-east-1" st
  = (Raise (ImageNotReadyException (has_state "ami-1" data)),
     after st (load_of image))
  /\ copy_ami Sim.customer "ami-1" "us-east-1" st
     = (Raise (ImageNotReadyException (has_state "ami-1" data)),
        after st (load_of image)).
Proof.
  intros image data st.
  apply (copy_ami_not_ready Sim.customer "ami-1" "us-east-1" st data);
    [reflexivity | discriminate | discriminate].
Defined.

Lemma copy_ami_copy_fails_witness :
  let denied := ClientError {| error_Code := "UnauthorizedOperation";
                               error_Message := "Not authorized" |} in
  let data := Sim.an_image "available" "rhel" in
  let st := Faulty.start (Sim.with_images [data] Sim.base)
              (Faulty.copy_fails denied) in
  fst (copy_ami (H := Faulty.cloud) Sim.customer "ami-1" "us-east-1" st)
  = Raise denied
  /\ trace (snd (copy_ami (H := Faulty.cloud) Sim.customer "ami-1"
                   "us-east-1" st))
     = [ Called (load_of (new_Image Sim.customer "us-east-1" "ami-1"));
         Called (CopyImage (client Sim.customer "us-east-1")
                   "cloudigrade reference copy (rhel)" "ami-1"
                   "us-east-1") ].
Proof.
  intros denied data st.
  destruct (copy_ami_copy_fails (H := Faulty.cloud) Sim.customer "ami-1"
              "us-east-1" st data denied) as (E & T);
    try reflexivity.
  rewrite E. split; [reflexivity | exact T].
Defined.

Lemma copy_ami_tags_fail_witness :
  let denied := ClientError {| error_Code := "UnauthorizedOperation";
                               error_Message := "Not authorized" |} in
  let data := Sim.an_image "available" "rhel" in
  let st := Faulty.start (Sim.with_images [data] Sim.base)
              (Faulty.tags_fail denied) in
  fst (copy_ami (H := Faulty.cloud) Sim.customer "ami-1" "us-east-1" st)
  = Raise denied
  /\ trace (snd (copy_ami (H := Faulty.cloud) Sim.customer "ami-1"
                   "us-east-1" st))
     = [ Called (load_of (new_Image Sim.customer "us-east-1" "ami-1"));
         Called (CopyImage (client Sim.customer "us-east-1")
                   "cloudigrade reference copy (rhel)" "ami-1"
                   "us-east-1");
         Called (CreateTags (client Sim.customer "us-east-1")
                   ["copy-of-ami-1"]
                   (copy_tags "cloudigrade reference copy (rhel)"
                      "ami-1" "rhel")) ].
Proof.
  intros denied data st.
  destruct (copy_ami_tags_fail (H := Faulty.cloud) Sim.customer "ami-1"
              "us-east-1" st data {| new_ImageId := "copy-of-ami-1" |}
              denied) as (E & T);
    try reflexivity.
  rewrite E. split; [reflexivity | exact T].
Defined.

(** ** Describing instances *)

Section DescribeInstances.
Context `{Cloud}.

Lemma fold_reservations_flat (rs : list reservation)
    (m : gmap string instance) :
  fold_left
    (fun instances r =>
       fold_left (fun instances i => <[InstanceId i := i]> instances)
                 (get_list (Instances r)) instances)
    rs m
  = fold_left (fun instances i => <[InstanceId i := i]> instances)
      (concat (map (fun r => default [] (Instances r)) rs)) m.
Proof.
  revert m. induction rs as [| r rs IH]; intros m; simpl; [reflexivity |].
  rewrite fold_left_app. apply IH.
Qed.

Lemma fold_instances_keyed (l : list instance) (m : gmap string instance) :
  forall k i,
    fold_left (fun instances i => <[InstanceId i := i]> instances) l m !! k
    = Some i ->
    (InstanceId i = k /\ i ∈ l) \/ m !! k = Some i.
Proof.
  revert m. induction l as [| x l IH]; intros m k i Hl; simpl in Hl.
  - right. exact Hl.
  - destruct (IH _ k i Hl) as [[Hk Hin] | Hm].
    + left. split; [exact Hk | right; exact Hin].
    + apply lookup_insert_Some in Hm as [[<- <-] | [_ Hm]].
      * left. split; [reflexivity | left].
      * right. exact Hm.
Qed.

Lemma fold_instances_keeps (l : list instance) (m : gmap string instance) k :
  is_Some (m !! k) ->
  is_Some (fold_left (fun instances i => <[InstanceId i := i]> instances)
             l m !! k).
Proof.
  revert m. induction l as [| x l IH]; intros m Hk; simpl; [exact Hk |].
  apply IH. apply lookup_insert_is_Some.
  destruct (decide (InstanceId x = k)); [left | right]; auto.
Qed.

Lemma fold_instances_present (l : list instance) (m : gmap string instance) :
  forall i, i ∈ l ->
    is_Some (fold_left (fun instances i => <[InstanceId i := i]> instances)
               l m !! InstanceId i).
Proof.
  revert m. induction l as [| x l IH]; intros m i Hin; simpl.
  - inversion Hin.
  - apply elem_of_cons in Hin as [-> | Hin].
    + apply fold_instances_keeps. rewrite lookup_insert_eq. eauto.
    + apply IH. exact Hin.
Qed.

(** X9.  When the describe is answered, [describe_instances] returns a
    dict in which every value is an instance of the answer stored under
    its own "InstanceId", and every instance id of the answer is a key:
    no instance is filtered out, a terminated one is kept too. *)
Theorem describe_instances_by_id session (instance_ids : list string)
    source_region st results :
  let q := DescribeInstances (client session source_region)
             (Some instance_ids) in
  answer_in st q = Ok results ->
  exists instances : gmap string instance,
    describe_instances session instance_ids source_region st
    = (Ok instances, after st q)
    /\ (forall k i, instances !! k = Some i ->
                    InstanceId i = k /\ i ∈ instances_of results)
    /\ (forall i, i ∈ instances_of results ->
                  is_Some (instances !! InstanceId i)).
Proof.
  intros q E. unfold describe_instances. fold q.
  rewrite (bind_call_ok _ _ _ _ E). unfold ret.
  eexists. split; [reflexivity |].
  rewrite fold_reservations_flat. unfold get_list.
  fold (instances_of results). split.
  - intros k i Hl. apply fold_instances_keyed in Hl as [Hl | Hl].
    + exact Hl.
    + rewrite lookup_empty in Hl. discriminate Hl.
  - apply fold_instances_present.
Qed.

Lemma extend_regions_lookup region (rs : list reservation)
    (m : gmap string (list instance)) :
  fold_left (extend_region region) rs m !! region
  = (fun l => l ++ filter (fun i => not_terminated i = true)
                     (concat (map (fun r => default [] (Instances r)) rs)))%list
      <$> m !! region.
Proof.
  revert m. induction rs as [| r rs IH]; intros m; simpl.
  - destruct (m !! region) as [l |]; simpl; [| reflexivity].
    rewrite app_nil_r. reflexivity.
  - rewrite IH. unfold extend_region at 1. rewrite lookup_alter_eq.
    destruct (m !! region) as [l |]; simpl; [| reflexivity].
    unfold get_list. rewrite filter_app, app_assoc. reflexivity.
Qed.

Lemma extend_regions_lookup_ne region (rs : list reservation)
    (m : gmap string (list instance)) k :
  region <> k -> fold_left (extend_region region) rs m !! k = m !! k.
Proof.
  intros Hne. revert m. induction rs as [| r rs IH]; intros m; simpl;
    [reflexivity |].
  rewrite IH. unfold extend_region. apply lookup_alter_ne. exact Hne.
Qed.

Lemma each_region_content session (regions : list string)
    (answers : string -> describe_instances_response) :
  (forall region w, region ∈ regions ->
      fst (respond (DescribeInstances (client session region) None) w)
      = Ok (answers region)) ->
  forall (m : gmap string (list instance)) st,
  exists m' st',
    each_region session regions m st = (Ok m', st')
    /\ (forall r, r ∈ regions ->
          m' !! r = Some (filter (fun i => not_terminated i = true)
                            (instances_of (answers r))))
    /\ (forall r, r ∉ regions -> m' !! r = m !! r).
Proof.
  induction regions as [| region regions IH]; intros Hanswers m st.
  - exists m, st. split; [reflexivity |]. split; [| reflexivity].
    intros r Hin. inversion Hin.
  - simpl each_region.
    assert (E : answer_in st (DescribeInstances (client session region)
                                None) = Ok (answers region)).
    { apply Hanswers. left. }
    rewrite (bind_call_ok _ _ _ _ E).
    edestruct IH as (m' & st' & Erun & Hin & Hout).
    { intros r w Hr. apply Hanswers. right. exact Hr. }
    exists m', st'. split; [exact Erun |]. split.
    + intros r Hr. destruct (decide (r ∈ regions)) as [Hrest | Hrest].
      * apply Hin. exact Hrest.
      * apply elem_of_cons in Hr as [-> | Hr]; [| destruct (Hrest Hr)].
        rewrite (Hout region Hrest), extend_regions_lookup.
        rewrite lookup_insert_eq. reflexivity.
    + intros r Hr. apply not_elem_of_cons in Hr as [Hne Hrest].
      rewrite (Hout r Hrest).
      rewrite extend_regions_lookup_ne by congruence.
      apply lookup_insert_ne. congruence.
Qed.

(** X10.  When each region's describe always gets the same answer,
    [describe_instances_everywhere] maps every region to the instances
    of that region's answer, in order, without those whose state code is
    48 and without any others: an instance with no "State" or no "Code"
    is kept. *)
Theorem describe_instances_everywhere_content session st
    (regions : list string)
    (answers : string -> describe_instances_response) :
  answer_in st (GetRegions session) = Ok regions ->
  (forall region w, region ∈ regions ->
      fst (respond (DescribeInstances (client session region) None) w)
      = Ok (answers region)) ->
  exists (running_instances : gmap string (list instance)) st',
    describe_instances_everywhere session st = (Ok running_instances, st')
    /\ forall region, region ∈ regions ->
         running_instances !! region
         = Some (filter (fun i => state_code i <> Some 48)
                   (instances_of (answers region))).
Proof.
  intros Eregions Hanswers.
  unfold describe_instances_everywhere, get_regions.
  rewrite (bind_call_ok _ _ _ _ Eregions).
  destruct (each_region_content session regions answers Hanswers ∅
              (after st (GetRegions session)))
    as (m & st' & Erun & Hin & _).
  exists m, st'. split; [exact Erun |].
  intros region Hr. rewrite (Hin region Hr). f_equal.
  apply list_filter_iff. intros i. unfold not_terminated.
  destruct (state_code i) as [c |]; simpl.
  - rewrite negb_true_iff, Z.eqb_neq. split; congruence.
  - split; [discriminate | reflexivity].
Qed.

Lemma each_region_raises session (before rest : list string)
    (bad : string) (e : exception) :
  (forall r w, r ∈ before -> exists response,
        fst (respond (DescribeInstances (client session r) None) w)
        = Ok response) ->
  (forall w,
      fst (respond (DescribeInstances (client session bad) None) w)
      = Raise e) ->
  forall (m : gmap string (list instance)) st,
    fst (each_region session (before ++ bad :: rest) m st) = Raise e
    /\ trace (snd (each_region session (before ++ bad :: rest) m st))
       = (trace st
            ++ map (fun r => Called (DescribeInstances (client session r)
                                       None))
                 (before ++ [bad]))%list.
Proof.
  intros Hbefore Hbad.
  induction before as [| r before IH]; intros m st.
  - simpl app. simpl each_region.
    rewrite (bind_call_raise _ _ _ _ (Hbad (world st))).
    split; reflexivity.
  - simpl app. simpl each_region.
    destruct (Hbefore r (world st)) as [response E]; [left |].
    rewrite (bind_call_ok _ _ _ _ E).
    edestruct IH as (Hr & Ht).
    { intros r' w Hr'. apply Hbefore. right. exact Hr'. }
    split; [exact Hr |]. rewrite Ht. simpl.
    rewrite <- app_assoc. reflexivity.
Qed.

(** X11.  When the describe of one region raises, after the regions
    before it were answered, [describe_instances_everywhere] raises the
    same exception -- no dict is returned for the regions already
    described -- and the regions after it are never asked: the requests
    issued are the region lookup and one describe per region up to the
    failing one. *)
Theorem describe_instances_everywhere_raises session st
    (before rest : list string) (bad : string) (e : exception) :
  answer_in st (GetRegions session) = Ok (before ++ bad :: rest)%list ->
  (forall r w, r ∈ before -> exists response,
        fst (respond (DescribeInstances (client session r) None) w)
        = Ok response) ->
  (forall w,
      fst (respond (DescribeInstances (client session bad) None) w)
      = Raise e) ->
  fst (describe_instances_everywhere session st) = Raise e
  /\ trace (snd (describe_instances_everywhere session st))
     = (trace st
          ++ Called (GetRegions session)
          :: map (fun r => Called (DescribeInstances (client session r)
                                     None))
               (before ++ [bad]))%list.
Proof.
  intros Eregions Hbefore Hbad.
  unfold describe_instances_everywhere, get_regions.
  rewrite (bind_call_ok _ _ _ _ Eregions).
  destruct (each_region_raises session before rest bad e Hbefore Hbad ∅
              (after st (GetRegions session))) as (Hr & Ht).
  split; [exact Hr |]. rewrite Ht. simpl.
  rewrite <- app_assoc. reflexivity.
Qed.

End DescribeInstances.

Lemma describe_instances_by_id_witness :
  let q := DescribeInstances (client Sim.customer "us-east-1")
             (Some ["i-1"; "i-2"]) in
  let results :=
    {| Reservations :=
         Some [ {| Instances := Some [Sim.an_instance "i-1" 48;
                                      Sim.an_instance "i-2" 16] |} ] |} in
  exists instances : gmap string instance,
    describe_instances Sim.customer ["i-1"; "i-2"] "us-east-1"
      (Sim.start Sim.base)
    = (Ok instances, after (Sim.start Sim.base) q)
    /\ (forall k i, instances !! k = Some i ->
                    InstanceId i = k /\ i ∈ instances_of results)
    /\ (forall i, i ∈ instances_of results ->
                  is_Some (instances !! InstanceId i)).
Proof.
  intros q results.
  apply (describe_instances_by_id Sim.customer ["i-1"; "i-2"] "us-east-1"
           (Sim.start Sim.base) results).
  reflexivity.
Defined.

Lemma describe_instances_everywhere_content_witness :
  let answers region :=
    {| Reservations := Sim.reservations_in (Some region) Sim.base |} in
  let C := Frozen.cloud Sim.base Frozen.no_faults in
  exists (running_instances : gmap string (list instance)) st',
    describe_instances_everywhere (H := C) Sim.customer
      (Frozen.start Sim.base Frozen.no_faults)
    = (Ok running_instances, st')
    /\ forall region, region ∈ ["us-east-1"; "eu-west-1"] ->
         running_instances !! region
         = Some (filter (fun i => state_code i <> Some 48)
                   (instances_of (answers region))).
Proof.
  intros answers C.
  apply (describe_instances_everywhere_content (H := C) Sim.customer
           (Frozen.start Sim.base Frozen.no_faults)
           ["us-east-1"; "eu-west-1"] answers).
  - reflexivity.
  - intros region w _. reflexivity.
Defined.

Lemma describe_instances_everywhere_raises_witness :
  let denied := ClientError {| error_Code := "AuthFailure";
                               error_Message := "Not authorized" |} in
  let C region := Frozen.cloud Sim.base
                    (Faulty.describe_fails_in region denied) in
  let st region := Frozen.start Sim.base
                     (Faulty.describe_fails_in region denied) in
  (fst (describe_instances_everywhere (H := C "eu-west-1") Sim.customer
          (st "eu-west-1"))
   = Raise denied
   /\ trace (snd (describe_instances_everywhere (H := C "eu-west-1")
                    Sim.customer (st "eu-west-1")))
      = [ Called (GetRegions Sim.customer);
          Called (DescribeInstances (client Sim.customer "us-east-1") None);
          Called (DescribeInstances (client Sim.customer "eu-west-1")
                    None) ])
  /\ (fst (describe_instances_everywhere (H := C "us-east-1") Sim.customer
             (st "us-east-1"))
      = Raise denied
      /\ trace (snd (describe_instances_everywhere (H := C "us-east-1")
                       Sim.customer (st "us-east-1")))
         = [ Called (GetRegions Sim.customer);
             Called (DescribeInstances (client Sim.customer "us-east-1")
                       None) ]).
Proof.
  intros denied C st. split.
  - apply (describe_instances_everywhere_raises (H := C "eu-west-1")
             Sim.customer (st "eu-west-1") ["us-east-1"] [] "eu-west-1"
             denied).
    + reflexivity.
    + intros r w Hr. apply list_elem_of_singleton in Hr as ->.
      eexists. reflexivity.
    + intros w. reflexivity.
  - apply (describe_instances_everywhere_raises (H := C "us-east-1")
             Sim.customer (st "us-east-1") [] ["eu-west-1"] "us-east-1"
             denied).
    + reflexivity.
    + intros r w Hr. inversion Hr.
    + intros w. reflexivity.
Defined.

(** ** Snapshots and volumes *)

(** X12.  [get_ami_snapshot_id] returns [None] -- not a string --
    exactly when no block-device mapping has the image's root device
    name, in particular for an image without mappings. *)
Theorem get_ami_snapshot_id_none_iff (ami : image_data) :
  get_ami_snapshot_id ami = None
  <-> Forall (fun m => DeviceName m <> RootDeviceName ami)
        (BlockDeviceMappings ami).
Proof.
  unfold get_ami_snapshot_id.
  induction (BlockDeviceMappings ami) as [| m l IH]; simpl.
  - split; [constructor | reflexivity].
  - destruct (String.eqb (DeviceName m) (RootDeviceName ami)) eqn:E; simpl.
    + apply String.eqb_eq in E. split; [discriminate |].
      intros Hall. inversion Hall as [| ? ? Hm _]. destruct (Hm E).
    + apply String.eqb_neq in E. rewrite IH. split.
      * intros Hl. constructor; assumption.
      * intros Hall. inversion Hall. assumption.
Qed.

(** X14.  [check_volume_state] raises [AwsVolumeNotReadyError] for the
    state "creating", raises [AwsVolumeError] naming the volume and its
    state for "in-use", "deleting", "deleted" and "error", and returns
    normally for every other state, "available" or not. *)
Theorem check_volume_state_outcomes (volume : Volume) :
  (volume_state volume = "creating" ->
   check_volume_state volume = Raise AwsVolumeNotReadyError)
  /\ (In (volume_state volume) ["in-use"; "deleting"; "deleted"; "error"] ->
      check_volume_state volume
      = Raise (AwsVolumeError
                 ("Volume " +:+ volume_id volume +:+ " has state: "
                    +:+ volume_state volume)))
  /\ (~ In (volume_state volume)
          ["creating"; "in-use"; "deleting"; "deleted"; "error"] ->
      check_volume_state volume = Ok tt).
Proof.
  unfold check_volume_state. split; [| split].
  - intros ->. reflexivity.
  - intros Hin.
    assert (Hc : String.eqb (volume_state volume) "creating" = false).
    { apply String.eqb_neq. intros E. rewrite E in Hin.
      simpl in Hin. intuition discriminate. }
    assert (Hb : existsb (String.eqb (volume_state volume))
                   ["in-use"; "deleting"; "deleted"; "error"] = true).
    { apply existsb_exists. exists (volume_state volume).
      split; [exact Hin | apply String.eqb_refl]. }
    rewrite Hc, Hb. reflexivity.
  - intros Hout.
    assert (Hc : String.eqb (volume_state volume) "creating" = false).
    { apply String.eqb_neq. intros E. apply Hout. left. symmetry. exact E. }
    assert (Hb : existsb (String.eqb (volume_state volume))
                   ["in-use"; "deleting"; "deleted"; "error"] = false).
    { destruct (existsb _ _) eqn:Eb; [| reflexivity].
      apply existsb_exists in Eb as (s & Hin & Es).
      apply String.eqb_eq in Es. subst s.
      destruct Hout. right. exact Hin. }
    rewrite Hc, Hb. reflexivity.
Qed.

Lemma check_volume_state_outcomes_witness :
  check_volume_state {| volume_id := "vol-1"; volume_state := "creating" |}
  = Raise AwsVolumeNotReadyError
  /\ check_volume_state {| volume_id := "vol-1"; volume_state := "in-use" |}
     = Raise (AwsVolumeError "Volume vol-1 has state: in-use")
  /\ check_volume_state
       {| volume_id := "vol-1"; volume_state := "available" |}
     = Ok tt
  /\ check_volume_state
       {| volume_id := "vol-1"; volume_state := "optimizing" |}
     = Ok tt.
Proof.
  split; [| split; [| split]].
  - apply (proj1 (check_volume_state_outcomes
                    {| volume_id := "vol-1"; volume_state := "creating" |})).
    reflexivity.
  - apply (proj1 (proj2 (check_volume_state_outcomes
                    {| volume_id := "vol-1"; volume_state := "in-use" |}))).
    left. reflexivity.
  - apply (proj2 (proj2 (check_volume_state_outcomes
                    {| volume_id := "vol-1";
                       volume_state := "available" |}))).
    simpl. intuition discriminate.
  - apply (proj2 (proj2 (check_volume_state_outcomes
                    {| volume_id := "vol-1";
                       volume_state := "optimizing" |}))).
    simpl. intuition discriminate.
Defined.

(** ** Verifying a permission change *)

Section VerifiedOwnership.
Context `{Cloud}.

(** X15.  When the account id is known, the modification succeeds and
    every re-read permission entry carries a "UserId",
    [add_snapshot_ownership] returns normally if and only if the account
    id is among the re-read entries, and raises
    [AwsSnapshotNotOwnedError] otherwise; the re-read comes after the
    "add" modification and is the last request. *)
Theorem add_snapshot_ownership_iff snapshot st user_id response :
  let modify :=
    SnapshotModifyAttribute (snapshot_ec2 snapshot) (snapshot_id snapshot)
      "createVolumePermission" [user_id] [] "add" [user_id] in
  let read :=
    SnapshotDescribeAttribute (snapshot_ec2 snapshot)
      (snapshot_id snapshot) "createVolumePermission" in
  let st1 := after st GetPrimaryAccountId in
  let st2 := after st1 modify in
  answer_in st GetPrimaryAccountId = Ok user_id ->
  answer_in st1 modify = Ok tt ->
  answer_in st2 read = Ok response ->
  Forall (fun p => UserId p <> None) (CreateVolumePermissions response) ->
  (fst (add_snapshot_ownership snapshot st) = Ok tt
   <-> Some user_id ∈ map UserId (CreateVolumePermissions response))
  /\ (Some user_id ∉ map UserId (CreateVolumePermissions response) ->
      fst (add_snapshot_ownership snapshot st)
      = Raise (AwsSnapshotNotOwnedError
                 (no_permissions (snapshot_id snapshot) user_id)))
  /\ snd (add_snapshot_ownership snapshot st) = after st2 read.
Proof.
  intros modify read st1 st2 Eid Emodify Eread Husers.
  rewrite (add_snapshot_ownership_verified snapshot st user_id response
             Eid Emodify Eread Husers).
  simpl. rewrite <- is_user_present.
  destruct (existsb (is_user user_id) (CreateVolumePermissions response)).
  - split; [split; reflexivity |]. split; [| reflexivity].
    intros Hn. destruct Hn. reflexivity.
  - split; [split; discriminate |]. split; reflexivity.
Qed.

(** X16.  Under the same conditions [remove_snapshot_ownership] raises
    [AwsSnapshotOwnedError] if and only if the account id is still among
    the re-read entries, and returns normally otherwise. *)
Theorem remove_snapshot_ownership_iff snapshot st user_id response :
  let modify :=
    SnapshotModifyAttribute (snapshot_ec2 snapshot) (snapshot_id snapshot)
      "createVolumePermission" [] [user_id] "remove" [user_id] in
  let read :=
    SnapshotDescribeAttribute (snapshot_ec2 snapshot)
      (snapshot_id snapshot) "createVolumePermission" in
  let st1 := after st GetPrimaryAccountId in
  let st2 := after st1 modify in
  answer_in st GetPrimaryAccountId = Ok user_id ->
  answer_in st1 modify = Ok tt ->
  answer_in st2 read = Ok response ->
  Forall (fun p => UserId p <> None) (CreateVolumePermissions response) ->
  (fst (remove_snapshot_ownership snapshot st)
   = Raise (AwsSnapshotOwnedError
              (failed_to_remove (snapshot_id snapshot) user_id))
   <-> Some user_id ∈ map UserId (CreateVolumePermissions response))
  /\ (Some user_id ∉ map UserId (CreateVolumePermissions response) ->
      fst (remove_snapshot_ownership snapshot st) = Ok tt)
  /\ snd (remove_snapshot_ownership snapshot st) = after st2 read.
Proof.
  intros modify read st1 st2 Eid Emodify Eread Husers.
  rewrite (remove_snapshot_ownership_verified snapshot st user_id response
             Eid Emodify Eread Husers).
  simpl. rewrite <- is_user_present.
  destruct (existsb (is_user user_id) (CreateVolumePermissions response)).
  - split; [split; reflexivity |]. split; [| reflexivity].
    intros Hn. destruct Hn. reflexivity.
  - split; [split; discriminate |]. split; reflexivity.
Qed.

(** X17.  When the modification itself raises, both functions raise the
    same exception without re-reading the permissions: the account id
    lookup and the modification are the only requests issued. *)
Theorem snapshot_ownership_modify_fails snapshot st user_id e :
  let add :=
    SnapshotModifyAttribute (snapshot_ec2 snapshot) (snapshot_id snapshot)
      "createVolumePermission" [user_id] [] "add" [user_id] in
  let remove :=
    SnapshotModifyAttribute (snapshot_ec2 snapshot) (snapshot_id snapshot)
      "createVolumePermission" [] [user_id] "remove" [user_id] in
  let st1 := after st GetPrimaryAccountId in
  answer_in st GetPrimaryAccountId = Ok user_id ->
  (answer_in st1 add = Raise e ->
   add_snapshot_ownership snapshot st = (Raise e, after st1 add))
  /\ (answer_in st1 remove = Raise e ->
      remove_snapshot_ownership snapshot st = (Raise e, after st1 remove)).
Proof.
  intros add remove st1 Eid. split; intros Em.
  - unfold add_snapshot_ownership, _get_primary_account_id.
    rewrite (bind_call_ok _ _ _ _ Eid). fold st1 add.
    apply (bind_call_raise _ _ _ _ Em).
  - unfold remove_snapshot_ownership, _get_primary_account_id.
    rewrite (bind_call_ok _ _ _ _ Eid). fold st1 remove.
    apply (bind_call_raise _ _ _ _ Em).
Qed.

End VerifiedOwnership.

Lemma add_snapshot_ownership_iff_witness :
  let me := Sim.primary_account_id Sim.base in
  fst (add_snapshot_ownership Sim.the_snapshot (Sim.start Sim.base)) = Ok tt
  /\ fst (add_snapshot_ownership Sim.the_snapshot
            (Sim.start (Sim.with_lost_modify Sim.base)))
     = Raise (AwsSnapshotNotOwnedError (no_permissions "snap-1" me)).
Proof.
  intros me.
  assert (Hme : Forall (fun p => UserId p <> None) [Sim.user me]).
  { constructor; [discriminate | constructor]. }
  pose proof (add_snapshot_ownership_iff Sim.the_snapshot
                (Sim.start Sim.base) me
                {| CreateVolumePermissions := [Sim.user me] |}
                eq_refl eq_refl eq_refl Hme) as (Hiff & _).
  pose proof (add_snapshot_ownership_iff Sim.the_snapshot
                (Sim.start (Sim.with_lost_modify Sim.base)) me
                {| CreateVolumePermissions := [] |}
                eq_refl eq_refl eq_refl (List.Forall_nil _)) as (_ & Hnot & _).
  split.
  - apply Hiff. simpl. apply list_elem_of_here.
  - apply Hnot. simpl. apply not_elem_of_nil.
Defined.

Lemma remove_snapshot_ownership_iff_witness :
  let me := Sim.primary_account_id Sim.base in
  let shared := Sim.set_permissions [Sim.user me] Sim.base in
  fst (remove_snapshot_ownership Sim.the_snapshot (Sim.start shared)) = Ok tt
  /\ fst (remove_snapshot_ownership Sim.the_snapshot
            (Sim.start (Sim.with_lost_modify shared)))
     = Raise (AwsSnapshotOwnedError (failed_to_remove "snap-1" me)).
Proof.
  intros me shared.
  assert (Hme : Forall (fun p => UserId p <> None) [Sim.user me]).
  { constructor; [discriminate | constructor]. }
  pose proof (remove_snapshot_ownership_iff Sim.the_snapshot
                (Sim.start shared) me {| CreateVolumePermissions := [] |}
                eq_refl eq_refl eq_refl (List.Forall_nil _)) as (_ & Hnot & _).
  pose proof (remove_snapshot_ownership_iff Sim.the_snapshot
                (Sim.start (Sim.with_lost_modify shared)) me
                {| CreateVolumePermissions := [Sim.user me] |}
                eq_refl eq_refl eq_refl Hme) as (Hiff & _).
  split.
  - apply Hnot. simpl. apply not_elem_of_nil.
  - apply Hiff. simpl. apply list_elem_of_here.
Defined.

Lemma snapshot_ownership_modify_fails_witness :
  let me := Sim.primary_account_id Sim.base in
  let denied := ClientError {| error_Code := "UnauthorizedOperation";
                               error_Message := "Not authorized" |} in
  let st := Faulty.start Sim.base (Faulty.modify_fails denied) in
  fst (add_snapshot_ownership (H := Faulty.cloud) Sim.the_snapshot st)
  = Raise denied
  /\ fst (remove_snapshot_ownership (H := Faulty.cloud) Sim.the_snapshot st)
     = Raise denied
  /\ trace (snd (add_snapshot_ownership (H := Faulty.cloud)
                   Sim.the_snapshot st))
     = [ Called GetPrimaryAccountId;
         Called (SnapshotModifyAttribute (client Sim.customer "us-east-1")
                   "snap-1" "createVolumePermission" [me] [] "add" [me]) ].
Proof.
  intros me denied st.
  destruct (snapshot_ownership_modify_fails (H := Faulty.cloud)
              Sim.the_snapshot st me denied eq_refl) as (Ha & Hr).
  rewrite (Ha eq_refl), (Hr eq_refl).
  split; [reflexivity | split; reflexivity].
Defined.
